(** * stream-chat-go: the channel handle and its merge engine

    A shallow embedding of [channel.go]: the [Channel] record, the
    [queryResponse] envelope, the merge [updateChannel] and the channel
    operations built on the [RestClient] transport.

    Go values are embedded as follows.
    - A pointer [*T] is [option] of its target: [None] is [nil].  Pointers
      to objects that [channel.go] mutates ([*Channel], the maps) are
      references into a store; pointers to objects it only reads
      ([*User], [*Message], [*ChannelMember], [*time.Time]) carry the
      pointee.
    - A slice is [option (list _)]: [None] is the [nil] slice, which the
      merge distinguishes from an empty one.
    - A [map[string]interface{}] is a reference to a [gmap string value]
      of the store, so that writes through an alias are seen by every
      holder; the [nil] map is [None].
    - [error] is [option string]: [None] is [nil].
    - A run-time panic is an outcome of its own. *)

From Stdlib Require Import ZArith.
From stdpp Require Import gmap strings list fin_maps.

Open Scope string_scope.
Open Scope list_scope.

(** ** Entity model *)

(** [time.Time] as an instant. *)
Definition Time := Z.

(** A store reference. *)
Abbreviation loc := nat.

(** [error]: [None] is [nil]. *)
Definition error := option string.

(** [errors.New]. *)
Definition errors_New (msg : string) : error := Some msg.

Module User.
  (** Modelled from the spec: the [User] struct is declared outside
      [channel.go]; "identity: user ID. Attributes: profile fields, role".
      [channel.go] reads and writes [ID] only. *)
Record t := mk { ID : string; Name : string; Role : string }.
End User.

Module Message.
  (** Modelled from the spec: the [Message] struct is declared outside
      [channel.go]; "identity: server-assigned ID. Attributes: text,
      author reference, parent message reference, message kind,
      rendered-body".  [channel.go] never looks inside a message. *)
Record t := mk {
    ID : string;
    Text : string;
    User : option User.t;
    ParentID : string;
    Type_ : string;
    HTML : string
  }.
End Message.

(** Modelled from the spec: the [ChannelConfig] struct is declared outside
    [channel.go]; "configuration (moderation/feature flags)".  It is
    copied as a whole and never inspected. *)
Record ChannelConfig := { config_name : string; config_flags : list (string * bool) }.

(** [RestClient] is an interface value: [nil], or a reference to a client
    object. *)
Definition RestClient := option nat.

Module ChannelMember.
Record t := mk {
    UserID : string;
    User : option User.t;
    IsModerator : bool;
    Invited : bool;
    InviteAcceptedAt : option Time;
    InviteRejectedAt : option Time;
    Role : string;
    CreatedAt : Time;
    UpdatedAt : Time
  }.
End ChannelMember.

Module Channel.
Record t := mk {
    ID : string;
    Type_ : string;
    CID : string;
    Config : ChannelConfig;
    CreatedBy : option User.t;
    Frozen : bool;
    MemberCount : Z;
    Members : option (list (option ChannelMember.t));
    Messages : option (list (option Message.t));
    Read : option (list (option User.t));
    CreatedAt : Time;
    UpdatedAt : Time;
    LastMessageAt : Time;
    client : RestClient
  }.

  (** [ch.client = c] and the three list assignments of the merge. *)
Definition set_client (c : RestClient) (ch : t) : t :=
    mk (ID ch) (Type_ ch) (CID ch) (Config ch) (CreatedBy ch) (Frozen ch)
       (MemberCount ch) (Members ch) (Messages ch) (Read ch)
       (CreatedAt ch) (UpdatedAt ch) (LastMessageAt ch) c.

Definition set_Members (ms : option (list (option ChannelMember.t))) (ch : t) : t :=
    mk (ID ch) (Type_ ch) (CID ch) (Config ch) (CreatedBy ch) (Frozen ch)
       (MemberCount ch) ms (Messages ch) (Read ch)
       (CreatedAt ch) (UpdatedAt ch) (LastMessageAt ch) (client ch).

Definition set_Messages (ms : option (list (option Message.t))) (ch : t) : t :=
    mk (ID ch) (Type_ ch) (CID ch) (Config ch) (CreatedBy ch) (Frozen ch)
       (MemberCount ch) (Members ch) ms (Read ch)
       (CreatedAt ch) (UpdatedAt ch) (LastMessageAt ch) (client ch).

Definition set_Read (rs : option (list (option User.t))) (ch : t) : t :=
    mk (ID ch) (Type_ ch) (CID ch) (Config ch) (CreatedBy ch) (Frozen ch)
       (MemberCount ch) (Members ch) (Messages ch) rs
       (CreatedAt ch) (UpdatedAt ch) (LastMessageAt ch) (client ch).

  (** The zero value of the struct. *)
Definition zero : t :=
    mk "" "" "" {| config_name := ""; config_flags := [] |} None false 0
       None None None 0%Z 0%Z 0%Z None.
End Channel.

Module ChannelOptions.
Record t := mk {
    ID : string;
    Type_ : string;
    Data : option loc
  }.
End ChannelOptions.

Module queryResponse.
Record t := mk {
    Channel : option Channel.t;
    Messages : option (list (option Message.t));
    Members : option (list (option ChannelMember.t));
    Read : option (list (option User.t))
  }.

  (** [var resp queryResponse]. *)
Definition zero : t := mk None None None None.
End queryResponse.

(** ** Dynamic values and the store *)

(** The [interface{}] values that [channel.go] puts in a payload or that a
    caller passes in an options map. *)
Inductive value :=
| VNil
| VBool (b : bool)
| VInt (n : Z)
| VString (s : string)
| VStrings (l : list string)
| VMap (m : option loc).

Inductive Method := POST | DELETE.

(** One transport call: what [Post] or [Delete] was given. *)
Record Request := {
  req_method : Method;
  req_path : string;
  req_params : option (gmap string (list string));
  req_data : value
}.

(** What a transport call gives back: an error, or the decoded body. *)
Inductive Reply :=
| Failed (err : string)
| Replied (resp : queryResponse.t).

Definition reply_err (r : Reply) : error :=
  match r with
  | Failed e => Some e
  | Replied _ => None
  end.

Record World := {
  chans : list Channel.t;
  imaps : list (gmap string value);
  smaps : list (gmap string string);
  calls : list Request
}.

Definition with_chans (cs : list Channel.t) (w : World) : World :=
  {| chans := cs; imaps := imaps w; smaps := smaps w; calls := calls w |}.

Definition with_imaps (ms : list (gmap string value)) (w : World) : World :=
  {| chans := chans w; imaps := ms; smaps := smaps w; calls := calls w |}.

Definition with_smaps (ms : list (gmap string string)) (w : World) : World :=
  {| chans := chans w; imaps := imaps w; smaps := ms; calls := calls w |}.

Definition with_calls (rs : list Request) (w : World) : World :=
  {| chans := chans w; imaps := imaps w; smaps := smaps w; calls := rs |}.

(** ** The monad of channel code: state, and panics *)

Inductive Outcome (A : Type) :=
| Done (a : A) (w : World)
| Panic (msg : string).

Arguments Done {A} a w.
Arguments Panic {A} msg.

Definition M (A : Type) := World → Outcome A.

Global Instance M_ret : MRet M := λ A a w, Done a w.

Global Instance M_bind : MBind M := λ A B k m w,
  match m w with
  | Done a w' => k a w'
  | Panic msg => Panic msg
  end.

Definition panic {A} (msg : string) : M A := λ _, Panic msg.

Definition nil_deref : string := "invalid memory address or nil pointer dereference".
Definition nil_map_write : string := "assignment to entry in nil map".

(** [*ch] read. *)
Definition load (ch : option loc) : M Channel.t :=
  λ w, match ch with
       | None => Panic nil_deref
       | Some l => match chans w !! l with
                   | Some c => Done c w
                   | None => Panic nil_deref
                   end
       end.

(** [*ch = c]. *)
Definition store (ch : option loc) (c : Channel.t) : M unit :=
  λ w, match ch with
       | None => Panic nil_deref
       | Some l => match chans w !! l with
                   | Some _ => Done tt (with_chans (<[l := c]> (chans w)) w)
                   | None => Panic nil_deref
                   end
       end.

(** [&Channel{...}]. *)
Definition new_chan (c : Channel.t) : M (option loc) :=
  λ w, Done (Some (length (chans w))) (with_chans (chans w ++ [c]) w).

(** A map literal, or [make]. *)
Definition make_map (m : gmap string value) : M (option loc) :=
  λ w, Done (Some (length (imaps w))) (with_imaps (imaps w ++ [m]) w).

(** The entries a [range] over the map visits; none for [nil]. *)
Definition range (r : option loc) : M (gmap string value) :=
  λ w, match r with
       | None => Done ∅ w
       | Some l => match imaps w !! l with
                   | Some m => Done m w
                   | None => Panic nil_deref
                   end
       end.

(** [r[k] = v]. *)
Definition assign (r : option loc) (k : string) (v : value) : M unit :=
  λ w, match r with
       | None => Panic nil_map_write
       | Some l => match imaps w !! l with
                   | Some m => Done tt (with_imaps (<[l := <[k := v]> m]> (imaps w)) w)
                   | None => Panic nil_deref
                   end
       end.

(** The same three for [map[string]string]. *)
Definition make_smap (m : gmap string string) : M (option loc) :=
  λ w, Done (Some (length (smaps w))) (with_smaps (smaps w ++ [m]) w).

Definition srange (r : option loc) : M (gmap string string) :=
  λ w, match r with
       | None => Done ∅ w
       | Some l => match smaps w !! l with
                   | Some m => Done m w
                   | None => Panic nil_deref
                   end
       end.

Definition sassign (r : option loc) (k : string) (v : string) : M unit :=
  λ w, match r with
       | None => Panic nil_map_write
       | Some l => match smaps w !! l with
                   | Some m => Done tt (with_smaps (<[l := <[k := v]> m]> (smaps w)) w)
                   | None => Panic nil_deref
                   end
       end.

(** [for k, v := range m { body }].  Go visits the entries in an
    unspecified order; the bodies in [channel.go] write one distinct key
    per entry, so the order of the fold does not show. *)
Definition foreach {V} (m : gmap string V) (body : string → V → M unit) : M unit :=
  map_fold (λ k v acc, acc ;; body k v) (mret tt) m.

(** Dereference of a pointer that carries its pointee. *)
Definition deref {A} (p : option A) : M A :=
  match p with
  | Some a => mret a
  | None => panic nil_deref
  end.

(** [ch.f = x]: read the struct, write it back with one field changed. *)
Definition modify (ch : option loc) (f : Channel.t → Channel.t) : M unit :=
  c ← load ch; store ch (f c).

(** ** The merge engine *)

Definition updateChannel (q : queryResponse.t) (ch : option loc) : M unit :=
  match queryResponse.Channel q with
  | Some qc =>
      (* save client pointer but update channel information *)
      c ← load ch;
      let client := Channel.client c in
      store ch qc;;
      modify ch (Channel.set_client client)
  | None => mret tt
  end;;
  match queryResponse.Members q with
  | Some ms => modify ch (Channel.set_Members (Some ms))
  | None => mret tt
  end;;
  match queryResponse.Messages q with
  | Some ms => modify ch (Channel.set_Messages (Some ms))
  | None => mret tt
  end;;
  match queryResponse.Read q with
  | Some rs => modify ch (Channel.set_Read (Some rs))
  | None => mret tt
  end.

(** ** Channel operations *)

(** What channel code takes from outside [channel.go]: [url.PathEscape]
    and [path.Join] of the Go library, and the transport behind a client
    reference, which answers a request given the calls made so far and the
    maps the request body refers to. *)
Record Env := {
  PathEscape : string → string;
  path_Join : list string → string;
  roundTrip : nat → list Request → list (gmap string value) → Request → Reply
}.

Section Operations.

Variable env : Env.

(** Modelled from the spec: the [RestClient] interface is declared outside
    [channel.go]; "POST(path, query-params, JSON-body) -> JSON-response"
    and "DELETE(path, query-params, JSON-body) -> JSON-response".  A call
    through a [nil] interface panics. *)
Definition Post (cl : RestClient) (p : string)
    (params : option (gmap string (list string))) (data : value) : M Reply :=
  λ w, match cl with
       | None => Panic nil_deref
       | Some c =>
           let rq := {| req_method := POST; req_path := p;
                        req_params := params; req_data := data |} in
           Done (roundTrip env c (calls w) (imaps w) rq)
                (with_calls (calls w ++ [rq]) w)
       end.

Definition Delete (cl : RestClient) (p : string)
    (params : option (gmap string (list string))) (data : value) : M Reply :=
  λ w, match cl with
       | None => Panic nil_deref
       | Some c =>
           let rq := {| req_method := DELETE; req_path := p;
                        req_params := params; req_data := data |} in
           Done (roundTrip env c (calls w) (imaps w) rq)
                (with_calls (calls w ++ [rq]) w)
       end.

(** [path.Join("channels", url.PathEscape(ch.Type), url.PathEscape(ch.ID), ...)]. *)
Definition channel_path (c : Channel.t) (rest : list string) : string :=
  path_Join env ("channels" :: PathEscape env (Channel.Type_ c)
                            :: PathEscape env (Channel.ID c) :: rest).

(** query makes request to channel api and updates channel internal state *)
Definition query (ch : option loc) (options data : option loc) : M error :=
  payload ← make_map {[ "state" := VBool true ]};
  opts ← range options;
  foreach opts (λ k v, assign payload k v);;
  data ← match data with
         | None => make_map ∅
         | Some _ => mret data
         end;
  c ← load ch;
  created_by ← deref (Channel.CreatedBy c);
  id ← make_map {[ "id" := VString (User.ID created_by) ]};
  assign data "created_by" (VMap id);;
  assign payload "data" (VMap data);;
  let p := channel_path c ["query"] in
  r ← Post (Channel.client c) p None (VMap payload);
  match r with
  | Failed err => mret (Some err)
  | Replied resp => updateChannel resp ch;; mret None
  end.

(** [&Channel{Type: options.Type, ID: options.ID,
               CreatedBy: &User{ID: userID}, client: client}]. *)
Definition new_channel (client : RestClient) (options : ChannelOptions.t)
    (userID : string) : Channel.t :=
  Channel.mk (ChannelOptions.ID options) (ChannelOptions.Type_ options)
    (Channel.CID Channel.zero) (Channel.Config Channel.zero)
    (Some (User.mk userID "" "")) false 0 None None None 0%Z 0%Z 0%Z client.

(** CreateChannel creates new channel of given type and id or returns
    already created one *)
Definition CreateChannel (client : RestClient) (options : ChannelOptions.t)
    (userID : string) : M (option loc * error) :=
  if decide (ChannelOptions.Type_ options = "") then
    mret (None, errors_New "channel type is empty")
  else if decide (ChannelOptions.ID options = "") then
    mret (None, errors_New "channel ID is empty")
  else if decide (userID = "") then
    mret (None, errors_New "user ID is empty")
  else
    ch ← new_chan (new_channel client options userID);
    args ← make_map {[ "watch" := VBool false; "state" := VBool true;
                       "presence" := VBool false ]};
    err ← query ch args (ChannelOptions.Data options);
    mret (ch, err).

(** Update edits the channel's custom properties *)
Definition Update (ch : option loc) (options : option loc) (message : string)
    : M error :=
  payload ← make_map {[ "data" := VMap options; "message" := VString message ]};
  c ← load ch;
  let p := channel_path c [] in
  r ← Post (Channel.client c) p None (VMap payload);
  mret (reply_err r).

(** Delete removes the channel. Messages are permanently removed. *)
Definition Channel_Delete (ch : option loc) : M error :=
  c ← load ch;
  let p := channel_path c [] in
  r ← Delete (Channel.client c) p None VNil;
  mret (reply_err r).

(** Truncate removes all messages from the channel *)
Definition Truncate (ch : option loc) : M error :=
  c ← load ch;
  let p := channel_path c ["truncate"] in
  r ← Post (Channel.client c) p None VNil;
  mret (reply_err r).

(** AddMembers adds members with given user IDs to the channel *)
Definition AddMembers (ch : option loc) (userIDs : list string) : M error :=
  if decide (length userIDs = 0) then mret (errors_New "user IDs are empty")
  else
    data ← make_map {[ "add_members" := VStrings userIDs ]};
    c ← load ch;
    let p := channel_path c [] in
    r ← Post (Channel.client c) p None (VMap data);
    mret (reply_err r).

(** RemoveMembers deletes members with given IDs from the channel *)
Definition RemoveMembers (ch : option loc) (userIDs : list string) : M error :=
  if decide (length userIDs = 0) then mret (errors_New "user IDs are empty")
  else
    data ← make_map {[ "remove_members" := VStrings userIDs ]};
    c ← load ch;
    let p := channel_path c [] in
    r ← Post (Channel.client c) p None (VMap data);
    match r with
    | Failed err => mret (Some err)
    | Replied resp => updateChannel resp ch;; mret None
    end.

(** AddModerators adds moderators with given IDs to the channel *)
Definition AddModerators (ch : option loc) (userIDs : list string) : M error :=
  if decide (length userIDs = 0) then mret (errors_New "user IDs are empty")
  else
    data ← make_map {[ "add_moderators" := VStrings userIDs ]};
    c ← load ch;
    let p := channel_path c [] in
    r ← Post (Channel.client c) p None (VMap data);
    mret (reply_err r).

(** DemoteModerators moderators with given IDs from the channel *)
Definition DemoteModerators (ch : option loc) (userIDs : list string) : M error :=
  if decide (length userIDs = 0) then mret (errors_New "user IDs are empty")
  else
    data ← make_map {[ "demote_moderators" := VStrings userIDs ]};
    c ← load ch;
    let p := channel_path c [] in
    r ← Post (Channel.client c) p None (VMap data);
    mret (reply_err r).

(** MarkRead send the mark read event for user with given ID *)
Definition MarkRead (ch : option loc) (userID : string) (options : option loc)
    : M error :=
  if decide (userID = "") then mret (errors_New "user ID must be not empty")
  else
    options ← match options with
              | None => make_map ∅
              | Some _ => mret options
              end;
    c ← load ch;
    let p := channel_path c ["read"] in
    user ← make_map {[ "id" := VString userID ]};
    assign options "user" (VMap user);;
    r ← Post (Channel.client c) p None (VMap options);
    mret (reply_err r).

(** BanUser bans target user ID from this channel *)
Definition BanUser (ch : option loc) (targetID userID : string)
    (options : option loc) : M error :=
  if decide (targetID = "") then mret (errors_New "target ID is empty")
  else if decide (userID = "") then mret (errors_New "user ID is empty")
  else
    options ← match options with
              | None => make_map ∅
              | Some _ => mret options
              end;
    c ← load ch;
    assign options "type" (VString (Channel.Type_ c));;
    assign options "id" (VString (Channel.ID c));;
    assign options "target_user_id" (VString targetID);;
    assign options "user_id" (VString userID);;
    r ← Post (Channel.client c) "moderation/ban" None (VMap options);
    mret (reply_err r).

(** UnBanUser removes the ban for target user ID on this channel *)
Definition UnBanUser (ch : option loc) (targetID : string)
    (options : option loc) : M error :=
  if decide (targetID = "") then mret (errors_New "target ID must be not empty")
  else
    options ← match options with
              | None => make_smap ∅
              | Some _ => mret options
              end;
    c ← load ch;
    sassign options "type" (Channel.Type_ c);;
    sassign options "id" (Channel.ID c);;
    sassign options "target_user_id" targetID;;
    opts ← srange options;
    let params := map_fold (λ k v ps, <[k := [v]]> ps) ∅ opts in
    r ← Delete (Channel.client c) "moderation/ban" (Some params) VNil;
    mret (reply_err r).

Definition refresh (ch : option loc) : M error :=
  options ← make_map {[ "watch" := VBool false; "state" := VBool true;
                        "presence" := VBool false ]};
  err ← query ch options None;
  mret err.

End Operations.

(** ** The merge as a function of the two records *)

(** What the four steps of [updateChannel] leave in the handle's cell. *)
Definition merged (q : queryResponse.t) (prev : Channel.t) : Channel.t :=
  let c1 := match queryResponse.Channel q with
            | Some qc => Channel.set_client (Channel.client prev) qc
            | None => prev
            end in
  let c2 := match queryResponse.Members q with
            | Some ms => Channel.set_Members (Some ms) c1
            | None => c1
            end in
  let c3 := match queryResponse.Messages q with
            | Some ms => Channel.set_Messages (Some ms) c2
            | None => c2
            end in
  match queryResponse.Read q with
  | Some rs => Channel.set_Read (Some rs) c3
  | None => c3
  end.

(** ** Vocabulary of the statements *)

(** A map argument a caller can pass: [nil], or a map of the store. *)
Definition live_map (w : World) (r : option loc) : Prop :=
  match r with
  | None => True
  | Some o => is_Some (imaps w !! o)
  end.

Definition live_smap (w : World) (r : option loc) : Prop :=
  match r with
  | None => True
  | Some o => is_Some (smaps w !! o)
  end.

(** The entries of a map argument; none for [nil]. *)
Definition map_of (w : World) (r : option loc) : gmap string value :=
  match r with
  | None => ∅
  | Some o => default ∅ (imaps w !! o)
  end.

Definition smap_of (w : World) (r : option loc) : gmap string string :=
  match r with
  | None => ∅
  | Some o => default ∅ (smaps w !! o)
  end.

(** The operation makes exactly one transport call and returns its error;
    whatever the answer carries, no channel cell is written. *)
Definition sends_without_merge (env : Env) (op : M error) (cl : nat)
    (w : World) : Prop :=
  ∃ rq w1,
    op w = Done (reply_err (roundTrip env cl (calls w) (imaps w1) rq))
                (with_calls (calls w ++ [rq]) w1) ∧
    chans w1 = chans w ∧ calls w1 = calls w.

(** The operation makes exactly one transport call; on an error it returns
    it and writes no channel cell, on an answer it merges the envelope
    into the cell [l], which held [c]. *)
Definition sends_then_merges (env : Env) (op : M error) (cl : nat)
    (l : loc) (c : Channel.t) (w : World) : Prop :=
  ∃ rq w1,
    op w = match roundTrip env cl (calls w) (imaps w1) rq with
           | Failed err => Done (Some err) (with_calls (calls w ++ [rq]) w1)
           | Replied resp =>
               Done None (with_chans (<[l := merged resp c]> (chans w))
                            (with_calls (calls w ++ [rq]) w1))
           end ∧
    chans w1 = chans w ∧ calls w1 = calls w.

(** The operation makes exactly one transport call, [rq], and when that
    call fails it returns the call's error in a world whose channel cells
    are those it started from. *)
Definition fails_without_change (env : Env) (op : M error) (cl : nat)
    (w : World) : Prop :=
  ∃ rq w1,
    chans w1 = chans w ∧ calls w1 = calls w ∧
    (∃ e w', op w = Done e w' ∧ calls w' = calls w ++ [rq]) ∧
    ∀ err, roundTrip env cl (calls w) (imaps w1) rq = Failed err →
           op w = Done (Some err) (with_calls (calls w ++ [rq]) w1).

(** The three lists of a handle. *)
Definition same_lists (c c' : Channel.t) : Prop :=
  Channel.Members c' = Channel.Members c ∧
  Channel.Messages c' = Channel.Messages c ∧
  Channel.Read c' = Channel.Read c.

(** The operation returns and the handle [l], which held [c], still has
    the same three lists. *)
Definition keeps_handle_lists (op : M error) (l : loc) (c : Channel.t)
    (w : World) : Prop :=
  ∃ e w' c', op w = Done e w' ∧ chans w' !! l = Some c' ∧ same_lists c c'.

(** The operation returns, and every map of the store is as before,
    except the [map[string]interface{}] behind [except] and the
    [map[string]string] behind [sexcept]. *)
Definition keeps_maps (op : M error) (w : World) (except sexcept : option loc)
    : Prop :=
  ∃ e w',
    op w = Done e w' ∧
    (∀ j m, Some j ≠ except → imaps w !! j = Some m → imaps w' !! j = Some m) ∧
    (∀ j m, Some j ≠ sexcept → smaps w !! j = Some m → smaps w' !! j = Some m).

(** The maps of the store at the moment [query] sends its request: the
    payload is allocated first, then the data map when the caller gave
    none, then the [created_by] object. *)
Definition query_heap (w : World) (options data : option loc) (uid : string)
    : list (gmap string value) :=
  let n := length (imaps w) in
  let payload := map_of w options ∪ {[ "state" := VBool true ]} in
  let id := {[ "id" := VString uid ]} in
  match data with
  | None =>
      imaps w ++ [ <["data" := VMap (Some (S n))]> payload;
                   {[ "created_by" := VMap (Some (S (S n))) ]};
                   id ]
  | Some d =>
      <[d := <["created_by" := VMap (Some (S n))]> (map_of w data)]> (imaps w)
        ++ [ <["data" := VMap data]> payload; id ]
  end.

(** The options [CreateChannel] and [refresh] query with. *)
Definition refresh_options : gmap string value :=
  {[ "watch" := VBool false; "state" := VBool true; "presence" := VBool false ]}.

Definition query_request (env : Env) (c : Channel.t) (w : World) : Request :=
  {| req_method := POST; req_path := channel_path env c ["query"];
     req_params := None; req_data := VMap (Some (length (imaps w))) |}.

(** ** Concrete scenarios

    Small worlds, envelopes and transports on which the statements below
    are evaluated. *)

Definition ex_Join (elems : list string) : string := String.concat "/" elems.

(** A transport that always fails, and one that always answers with the
    same envelope. *)
Definition ex_failing : Env :=
  {| PathEscape := id; path_Join := ex_Join;
     roundTrip := λ _ _ _ _, Failed "connection refused" |}.

Definition ex_answering (resp : queryResponse.t) : Env :=
  {| PathEscape := id; path_Join := ex_Join;
     roundTrip := λ _ _ _ _, Replied resp |}.

Definition ex_user (id : string) : User.t := User.mk id "" "".

Definition ex_message (id : string) : Message.t :=
  Message.mk id "hello" (Some (ex_user "alice")) "" "regular" "<p>hello</p>".

Definition ex_member (id : string) : ChannelMember.t :=
  ChannelMember.mk id (Some (ex_user id)) false false None None "member" 0%Z 0%Z.

(** A handle that holds one cached message and one read marker. *)
Definition ex_prev : Channel.t :=
  Channel.mk "general" "messaging" "messaging:general"
    {| config_name := "messaging"; config_flags := [("read_events", true)] |}
    (Some (ex_user "alice")) false 1
    (Some [Some (ex_member "alice")])
    (Some [Some (ex_message "m1")])
    (Some [Some (ex_user "alice")])
    10%Z 20%Z 30%Z (Some 7).

(** A decoded channel object: the transport field is never decoded. *)
Definition ex_remote : Channel.t :=
  Channel.mk "general" "messaging" "messaging:general"
    {| config_name := "messaging"; config_flags := [] |}
    (Some (ex_user "bob")) true 2 None None None 11%Z 21%Z 31%Z None.

Definition ex_world : World :=
  {| chans := [ex_prev]; imaps := []; smaps := []; calls := [] |}.

(** The same world with maps a caller holds: ban options in the first
    slot, extra channel data in the second, unban options as a
    [map[string]string]. *)
Definition ex_ban_options : gmap string value :=
  {[ "timeout" := VInt 3600;
     "reason" := VString "offensive language is not allowed here";
     "type" := VString "livestream" ]}.

Definition ex_members_data : gmap string value :=
  {[ "members" := VStrings ["bob"; "carol"] ]}.

Definition ex_unban_options : gmap string string :=
  {[ "reason" := "appeal"; "id" := "other" ]}.

Definition ex_world_maps : World :=
  {| chans := [ex_prev]; imaps := [ex_ban_options; ex_members_data];
     smaps := [ex_unban_options]; calls := [] |}.

Definition ex_empty : World :=
  {| chans := []; imaps := []; smaps := []; calls := [] |}.

(** A channel object decoded from a body without [created_by]. *)
Definition ex_no_creator : Channel.t :=
  Channel.mk "general" "messaging" "messaging:general"
    {| config_name := "messaging"; config_flags := [] |}
    None false 0 None None None 11%Z 21%Z 31%Z None.

(** An envelope whose channel object lacks [created_by], and one for a
    channel the server already has, with its members. *)
Definition ex_no_creator_envelope : queryResponse.t :=
  queryResponse.mk (Some ex_no_creator) None None None.

Definition ex_existing_envelope : queryResponse.t :=
  queryResponse.mk (Some ex_remote) (Some [])
    (Some [Some (ex_member "alice"); Some (ex_member "bob")]) (Some []).

(** Envelopes: members only, with and without a channel object. *)
Definition ex_members_only : queryResponse.t :=
  queryResponse.mk None None (Some [Some (ex_member "bob")]) None.

Definition ex_channel_and_members : queryResponse.t :=
  queryResponse.mk (Some ex_remote) None (Some [Some (ex_member "bob")]) None.

(** * Verification *)

(** ** Running the monad *)

Lemma bind_run {A B} (m : M A) (k : A → M B) w a w' :
  m w = Done a w' → (m ≫= k) w = k a w'.
Proof. intros H. unfold mbind, M_bind. by rewrite H. Qed.

Lemma load_run w l c :
  chans w !! l = Some c → load (Some l) w = Done c w.
Proof. intros H. unfold load. by rewrite H. Qed.

Lemma store_run w l c c' :
  chans w !! l = Some c →
  store (Some l) c' w = Done tt (with_chans (<[l := c']> (chans w)) w).
Proof. intros H. unfold store. by rewrite H. Qed.

Lemma modify_run w l c f :
  chans w !! l = Some c →
  modify (Some l) f w = Done tt (with_chans (<[l := f c]> (chans w)) w).
Proof.
  intros H. unfold modify.
  rewrite (bind_run _ _ _ _ _ (load_run _ _ _ H)).
  by apply store_run with c.
Qed.

Lemma chans_stored w l c' :
  l < length (chans w) →
  chans (with_chans (<[l := c']> (chans w)) w) !! l = Some c'.
Proof. intros H. simpl. by apply list_lookup_insert_eq. Qed.

Lemma with_chans_twice w l c c' :
  with_chans (<[l := c']> (chans (with_chans (<[l := c]> (chans w)) w)))
             (with_chans (<[l := c]> (chans w)) w)
  = with_chans (<[l := c']> (chans w)) w.
Proof. unfold with_chans. simpl. by rewrite list_insert_insert_eq. Qed.

Lemma with_chans_same w l c :
  chans w !! l = Some c → with_chans (<[l := c]> (chans w)) w = w.
Proof.
  intros H. unfold with_chans. rewrite list_insert_id by done. by destruct w.
Qed.

(** One optional step of the merge, as [updateChannel] writes them. *)
Lemma merge_step_run {X} (o : option X) (f : X → Channel.t → Channel.t)
    (k : M unit) w l c :
  l < length (chans w) →
  (match o with
   | Some x => modify (Some l) (f x)
   | None => mret tt
   end ≫= λ _, k) (with_chans (<[l := c]> (chans w)) w)
  = k (with_chans (<[l := match o with Some x => f x c | None => c end]>
                     (chans w)) w).
Proof.
  intros H. destruct o as [x|]; last done.
  erewrite bind_run; last by eapply modify_run, chans_stored.
  by rewrite with_chans_twice.
Qed.

Lemma updateChannel_run q w l prev :
  chans w !! l = Some prev →
  updateChannel q (Some l) w
  = Done tt (with_chans (<[l := merged q prev]> (chans w)) w).
Proof.
  intros H. unfold updateChannel, merged.
  pose proof (with_chans_same _ _ _ H) as Hw.
  pose proof (lookup_lt_Some _ _ _ H) as Hl.
  set (c1 := match queryResponse.Channel q with
             | Some qc => Channel.set_client (Channel.client prev) qc
             | None => prev
             end).
  assert (∀ k : M unit,
    (match queryResponse.Channel q with
     | Some qc =>
         c ← load (Some l);
         let client := Channel.client c in
         store (Some l) qc;; modify (Some l) (Channel.set_client client)
     | None => mret tt
     end ≫= λ _, k) w = k (with_chans (<[l := c1]> (chans w)) w)) as ->.
  { intros k. subst c1. destruct (queryResponse.Channel q) as [qc|].
    - erewrite bind_run; first done.
      rewrite (bind_run _ _ _ _ _ (load_run _ _ _ H)). simpl.
      rewrite (bind_run _ _ _ _ _ (store_run _ _ _ qc H)).
      erewrite modify_run; last by eapply chans_stored.
      by rewrite with_chans_twice.
    - simpl. by rewrite Hw. }
  rewrite (merge_step_run (queryResponse.Members q)
             (λ ms, Channel.set_Members (Some ms))) by done.
  rewrite (merge_step_run (queryResponse.Messages q)
             (λ ms, Channel.set_Messages (Some ms))) by done.
  destruct (queryResponse.Read q) as [rs|]; last done.
  erewrite modify_run; last by eapply chans_stored.
  by rewrite with_chans_twice.
Qed.

(** ** The merge engine: claims C1, C2 and C7 *)

(** C1, as stated, fails: with members present, messages and read absent
    and a channel object in the envelope, the cached Messages and Read are
    not kept; they are overwritten by the channel object's own (here nil)
    lists. *)
Lemma updateChannel_partial_with_channel_drops_lists :
  queryResponse.Members ex_channel_and_members ≠ None ∧
  queryResponse.Messages ex_channel_and_members = None ∧
  queryResponse.Read ex_channel_and_members = None ∧
  chans ex_world !! 0 = Some ex_prev ∧
  ∃ w' c',
    updateChannel ex_channel_and_members (Some 0) ex_world = Done tt w' ∧
    chans w' !! 0 = Some c' ∧
    Channel.Messages c' ≠ Channel.Messages ex_prev ∧
    Channel.Read c' ≠ Channel.Read ex_prev.
Proof.
  repeat split; try done.
  eexists _, _. repeat split; try reflexivity; simpl; discriminate.
Qed.

(** C1, amended: for an envelope with members present and messages and
    read absent, the merged Messages and Read are the pre-merge values
    when the envelope has no channel object, and the Messages and Read of
    the envelope's channel object when it has one. *)
Theorem updateChannel_absent_lists w l prev q ms :
  chans w !! l = Some prev →
  queryResponse.Members q = Some ms →
  queryResponse.Messages q = None →
  queryResponse.Read q = None →
  ∃ w' c',
    updateChannel q (Some l) w = Done tt w' ∧
    chans w' !! l = Some c' ∧
    Channel.Messages c' = match queryResponse.Channel q with
                          | None => Channel.Messages prev
                          | Some qc => Channel.Messages qc
                          end ∧
    Channel.Read c' = match queryResponse.Channel q with
                      | None => Channel.Read prev
                      | Some qc => Channel.Read qc
                      end.
Proof.
  intros H Hms Hmsg Hrd.
  eexists _, _. split; first by apply updateChannel_run.
  split; first by eapply chans_stored, lookup_lt_Some.
  unfold merged. rewrite Hms, Hmsg, Hrd.
  by destruct (queryResponse.Channel q).
Qed.

Lemma updateChannel_absent_lists_witness :
  ∃ w' c',
    updateChannel ex_members_only (Some 0) ex_world = Done tt w' ∧
    chans w' !! 0 = Some c' ∧
    Channel.Messages c' = Some [Some (ex_message "m1")] ∧
    Channel.Read c' = Some [Some (ex_user "alice")].
Proof.
  apply (updateChannel_absent_lists ex_world 0 ex_prev ex_members_only
           [Some (ex_member "bob")]); reflexivity.
Defined.

(** C2: when the envelope has a channel object, the merged handle keeps
    the previous client reference and takes every metadata field from the
    channel object. *)
Theorem updateChannel_keeps_client_replaces_metadata w l prev q qc :
  chans w !! l = Some prev →
  queryResponse.Channel q = Some qc →
  ∃ w' c',
    updateChannel q (Some l) w = Done tt w' ∧
    chans w' !! l = Some c' ∧
    Channel.client c' = Channel.client prev ∧
    Channel.ID c' = Channel.ID qc ∧
    Channel.Type_ c' = Channel.Type_ qc ∧
    Channel.CID c' = Channel.CID qc ∧
    Channel.Config c' = Channel.Config qc ∧
    Channel.CreatedBy c' = Channel.CreatedBy qc ∧
    Channel.Frozen c' = Channel.Frozen qc ∧
    Channel.MemberCount c' = Channel.MemberCount qc ∧
    Channel.CreatedAt c' = Channel.CreatedAt qc ∧
    Channel.UpdatedAt c' = Channel.UpdatedAt qc ∧
    Channel.LastMessageAt c' = Channel.LastMessageAt qc.
Proof.
  intros H Hq.
  eexists _, _. split; first by apply updateChannel_run.
  split; first by eapply chans_stored, lookup_lt_Some.
  unfold merged. rewrite Hq.
  by destruct (queryResponse.Members q), (queryResponse.Messages q),
    (queryResponse.Read q).
Qed.

Lemma updateChannel_keeps_client_replaces_metadata_witness :
  ∃ w' c',
    updateChannel ex_channel_and_members (Some 0) ex_world = Done tt w' ∧
    chans w' !! 0 = Some c' ∧
    Channel.client c' = Some 7 ∧
    Channel.ID c' = "general" ∧
    Channel.Type_ c' = "messaging" ∧
    Channel.CID c' = "messaging:general" ∧
    Channel.Config c' = {| config_name := "messaging"; config_flags := [] |} ∧
    Channel.CreatedBy c' = Some (ex_user "bob") ∧
    Channel.Frozen c' = true ∧
    Channel.MemberCount c' = 2%Z ∧
    Channel.CreatedAt c' = 11%Z ∧
    Channel.UpdatedAt c' = 21%Z ∧
    Channel.LastMessageAt c' = 31%Z.
Proof.
  apply (updateChannel_keeps_client_replaces_metadata ex_world 0 ex_prev
           ex_channel_and_members ex_remote); reflexivity.
Defined.

(** C7: when the envelope has no channel object, the merge leaves every
    metadata field (and the client) as it was, and replaces exactly those
    of Members, Messages and Read that are non-nil in the envelope. *)
Theorem updateChannel_without_channel_object w l prev q :
  chans w !! l = Some prev →
  queryResponse.Channel q = None →
  ∃ w' c',
    updateChannel q (Some l) w = Done tt w' ∧
    chans w' !! l = Some c' ∧
    Channel.client c' = Channel.client prev ∧
    Channel.ID c' = Channel.ID prev ∧
    Channel.Type_ c' = Channel.Type_ prev ∧
    Channel.CID c' = Channel.CID prev ∧
    Channel.Config c' = Channel.Config prev ∧
    Channel.CreatedBy c' = Channel.CreatedBy prev ∧
    Channel.Frozen c' = Channel.Frozen prev ∧
    Channel.MemberCount c' = Channel.MemberCount prev ∧
    Channel.CreatedAt c' = Channel.CreatedAt prev ∧
    Channel.UpdatedAt c' = Channel.UpdatedAt prev ∧
    Channel.LastMessageAt c' = Channel.LastMessageAt prev ∧
    Channel.Members c' = match queryResponse.Members q with
                         | Some ms => Some ms
                         | None => Channel.Members prev
                         end ∧
    Channel.Messages c' = match queryResponse.Messages q with
                          | Some ms => Some ms
                          | None => Channel.Messages prev
                          end ∧
    Channel.Read c' = match queryResponse.Read q with
                      | Some rs => Some rs
                      | None => Channel.Read prev
                      end.
Proof.
  intros H Hq.
  eexists _, _. split; first by apply updateChannel_run.
  split; first by eapply chans_stored, lookup_lt_Some.
  unfold merged. rewrite Hq.
  by destruct (queryResponse.Members q), (queryResponse.Messages q),
    (queryResponse.Read q).
Qed.

Lemma updateChannel_without_channel_object_witness :
  ∃ w' c',
    updateChannel ex_members_only (Some 0) ex_world = Done tt w' ∧
    chans w' !! 0 = Some c' ∧
    Channel.client c' = Some 7 ∧
    Channel.ID c' = "general" ∧
    Channel.Type_ c' = "messaging" ∧
    Channel.CID c' = "messaging:general" ∧
    Channel.Config c' = Channel.Config ex_prev ∧
    Channel.CreatedBy c' = Some (ex_user "alice") ∧
    Channel.Frozen c' = false ∧
    Channel.MemberCount c' = 1%Z ∧
    Channel.CreatedAt c' = 10%Z ∧
    Channel.UpdatedAt c' = 20%Z ∧
    Channel.LastMessageAt c' = 30%Z ∧
    Channel.Members c' = Some [Some (ex_member "bob")] ∧
    Channel.Messages c' = Some [Some (ex_message "m1")] ∧
    Channel.Read c' = Some [Some (ex_user "alice")].
Proof.
  apply (updateChannel_without_channel_object ex_world 0 ex_prev
           ex_members_only); reflexivity.
Defined.

(** ** The store: lookups and updates next to the allocation point *)

Lemma lookup_tail0 {A} (l r : list A) x n :
  n = length l → (l ++ x :: r) !! n = Some x.
Proof. intros ->. by apply list_lookup_middle. Qed.

Lemma lookup_tail1 {A} (l r : list A) x y n :
  n = S (length l) → (l ++ x :: y :: r) !! n = Some y.
Proof.
  intros ->. rewrite (cons_middle x l), app_assoc.
  apply list_lookup_middle. rewrite length_app. simpl. lia.
Qed.

Lemma insert_tail0 {A} (l r : list A) x z n :
  n = length l → <[n := z]> (l ++ x :: r) = l ++ z :: r.
Proof.
  intros ->. rewrite insert_app_r_alt by lia. by rewrite Nat.sub_diag.
Qed.

Lemma insert_tail1 {A} (l r : list A) x y z n :
  n = S (length l) → <[n := z]> (l ++ x :: y :: r) = l ++ x :: z :: r.
Proof.
  intros ->. rewrite insert_app_r_alt by lia.
  by replace (S (length l) - length l) with 1 by lia.
Qed.

Lemma snoc_snoc {A} (l : list A) x y : (l ++ [x]) ++ [y] = l ++ [x; y].
Proof. by rewrite <- app_assoc. Qed.

Lemma snoc2_snoc {A} (l : list A) x y z : (l ++ [x; y]) ++ [z] = l ++ [x; y; z].
Proof. by rewrite <- app_assoc. Qed.

Lemma length_snoc {A} (l : list A) x : length (l ++ [x]) = S (length l).
Proof. rewrite length_app. simpl. lia. Qed.

Lemma length_snoc2 {A} (l : list A) x y : length (l ++ [x; y]) = S (S (length l)).
Proof. rewrite length_app. simpl. lia. Qed.

Lemma assign_run w o m k v :
  imaps w !! o = Some m →
  assign (Some o) k v w = Done tt (with_imaps (<[o := <[k := v]> m]> (imaps w)) w).
Proof. intros H. unfold assign. by rewrite H. Qed.

Lemma sassign_run w o m k v :
  smaps w !! o = Some m →
  sassign (Some o) k v w = Done tt (with_smaps (<[o := <[k := v]> m]> (smaps w)) w).
Proof. intros H. unfold sassign. by rewrite H. Qed.

Lemma srange_run w o m :
  smaps w !! o = Some m → srange (Some o) w = Done m w.
Proof. intros H. unfold srange. by rewrite H. Qed.

Lemma range_run w w' r :
  live_map w r →
  (∀ o, o < length (imaps w) → imaps w' !! o = imaps w !! o) →
  range r w' = Done (map_of w r) w'.
Proof.
  intros Hr Hw. destruct r as [o|]; last done.
  destruct Hr as [m Hm]. unfold range, map_of.
  rewrite Hw by (by eapply lookup_lt_Some). by rewrite Hm.
Qed.

(** The loop [for k, v := range options { payload[k] = v }] on a payload
    that was just allocated: the options are laid over it. *)
Lemma foreach_assign_fresh (opts : gmap string value) w m :
  foreach opts (λ k v, assign (Some (length (imaps w))) k v)
    (with_imaps (imaps w ++ [m]) w)
  = Done tt (with_imaps (imaps w ++ [opts ∪ m]) w).
Proof.
  unfold foreach.
  apply (map_fold_weak_ind
    (λ (r : M unit) (om : gmap string value),
       r (with_imaps (imaps w ++ [m]) w)
       = Done tt (with_imaps (imaps w ++ [om ∪ m]) w))).
  - by rewrite (left_id_L ∅ (∪)).
  - intros i x om r _ IH.
    rewrite (bind_run _ _ _ _ _ IH).
    erewrite assign_run; last by apply lookup_tail0.
    unfold with_imaps. simpl.
    by rewrite insert_tail0, insert_union_l.
Qed.

(** The loop [for k, v := range options { params[k] = []string{v} }]. *)
Lemma params_of_options (opts : gmap string string) :
  map_fold (λ k v (ps : gmap string (list string)), <[k := [v]]> ps) ∅ opts
  = (λ v, [v]) <$> opts.
Proof.
  apply (map_fold_weak_ind
    (λ (r : gmap string (list string)) (om : gmap string string),
       r = (λ v, [v]) <$> om)).
  - by rewrite fmap_empty.
  - intros i x om r _ ->. by rewrite fmap_insert.
Qed.

Ltac heap_norm :=
  unfold with_imaps, with_smaps, with_calls, with_chans; simpl;
  repeat first
    [ rewrite snoc_snoc
    | rewrite snoc2_snoc
    | rewrite length_snoc
    | rewrite length_snoc2
    | rewrite length_insert
    | rewrite insert_tail0 by (by rewrite ?length_insert)
    | rewrite insert_tail1 by (by rewrite ?length_insert)
    | rewrite insert_app_l by (rewrite ?length_insert; eauto using lookup_lt_Some)
    | rewrite list_insert_insert_eq ];
  simpl.

Ltac heap_lookup :=
  simpl;
  first
    [ eassumption
    | apply lookup_tail0; by rewrite ?length_insert
    | apply lookup_tail1; by rewrite ?length_insert
    | apply list_lookup_insert_eq; eauto using lookup_lt_Some
    | rewrite lookup_app_l by (rewrite ?length_insert; eauto using lookup_lt_Some);
      first [ eassumption
            | apply list_lookup_insert_eq; eauto using lookup_lt_Some ] ].

(** One statement of an operation. *)
Ltac step :=
  first
    [ erewrite bind_run; last reflexivity
    | erewrite bind_run; last (eapply load_run; heap_lookup)
    | erewrite bind_run; last (eapply assign_run; heap_lookup)
    | erewrite bind_run; last (eapply sassign_run; heap_lookup)
    | erewrite bind_run; last (eapply srange_run; heap_lookup) ];
  heap_norm.

(** ** The operations, run on a live handle *)

Section Runs.

Variable env : Env.

Lemma Post_run cl p params data w :
  Post env (Some cl) p params data w
  = let rq := {| req_method := POST; req_path := p;
                 req_params := params; req_data := data |} in
    Done (roundTrip env cl (calls w) (imaps w) rq)
         (with_calls (calls w ++ [rq]) w).
Proof. done. Qed.

Lemma Delete_run cl p params data w :
  Delete env (Some cl) p params data w
  = let rq := {| req_method := DELETE; req_path := p;
                 req_params := params; req_data := data |} in
    Done (roundTrip env cl (calls w) (imaps w) rq)
         (with_calls (calls w ++ [rq]) w).
Proof. done. Qed.

Lemma query_run w l c u cl options data :
  chans w !! l = Some c →
  Channel.CreatedBy c = Some u →
  Channel.client c = Some cl →
  live_map w options → live_map w data →
  let ims := query_heap w options data (User.ID u) in
  let rq := query_request env c w in
  let w1 := with_calls (calls w ++ [rq]) (with_imaps ims w) in
  query env (Some l) options data w
  = match roundTrip env cl (calls w) ims rq with
    | Failed err => Done (Some err) w1
    | Replied resp => Done None (with_chans (<[l := merged resp c]> (chans w)) w1)
    end.
Proof.
  intros Hc Hu Hcl Ho Hd. unfold query, query_request.
  erewrite bind_run; last done.
  erewrite bind_run; last (eapply range_run; [done|]).
  2:{ intros o Hlt. simpl. by apply lookup_app_l. }
  rewrite (bind_run _ _ _ _ _ (foreach_assign_fresh _ _ _)).
  destruct data as [d|].
  - destruct Hd as [dm Hdm].
    do 2 step. rewrite Hu. do 4 step. rewrite Hdm, Hcl.
    erewrite bind_run; last apply Post_run. simpl.
    destruct (roundTrip _ _ _ _ _) as [err|resp]; first done.
    erewrite bind_run; last by apply updateChannel_run.
    reflexivity.
  - do 2 step. rewrite Hu. do 4 step. rewrite Hcl.
    erewrite bind_run; last apply Post_run. simpl.
    destruct (roundTrip _ _ _ _ _) as [err|resp]; first done.
    erewrite bind_run; last by apply updateChannel_run.
    reflexivity.
Qed.

Lemma query_nil_CreatedBy w l c options data :
  chans w !! l = Some c →
  Channel.CreatedBy c = None →
  live_map w options → live_map w data →
  query env (Some l) options data w = Panic nil_deref.
Proof.
  intros Hc Hu Ho Hd. unfold query.
  erewrite bind_run; last done.
  erewrite bind_run; last (eapply range_run; [done|]).
  2:{ intros o Hlt. simpl. by apply lookup_app_l. }
  rewrite (bind_run _ _ _ _ _ (foreach_assign_fresh _ _ _)).
  destruct data as [d|]; do 2 step; by rewrite Hu.
Qed.

Lemma query_sends_then_merges w l c u cl options data :
  chans w !! l = Some c →
  Channel.CreatedBy c = Some u →
  Channel.client c = Some cl →
  live_map w options → live_map w data →
  sends_then_merges env (query env (Some l) options data) cl l c w.
Proof.
  intros Hc Hu Hcl Ho Hd.
  exists (query_request env c w),
         (with_imaps (query_heap w options data (User.ID u)) w).
  split; last done. by apply query_run.
Qed.

Lemma refresh_eq ch w :
  refresh env ch w
  = query env ch (Some (length (imaps w))) None
      (with_imaps (imaps w ++ [refresh_options]) w).
Proof.
  unfold refresh. erewrite bind_run; last done.
  unfold mbind, M_bind, mret, M_ret. by destruct (query _ _ _ _ _).
Qed.

Lemma refresh_sends_then_merges w l c u cl :
  chans w !! l = Some c →
  Channel.CreatedBy c = Some u →
  Channel.client c = Some cl →
  sends_then_merges env (refresh env (Some l)) cl l c w.
Proof.
  intros Hc Hu Hcl. unfold sends_then_merges. rewrite refresh_eq.
  destruct (query_sends_then_merges
              (with_imaps (imaps w ++ [refresh_options]) w) l c u cl
              (Some (length (imaps w))) None) as (rq & w1 & Hq & Hch & Hca);
    try done.
  { simpl. rewrite lookup_tail0; by eauto. }
  exists rq, w1. by rewrite Hq.
Qed.

Lemma CreateChannel_run cl options userID w :
  ChannelOptions.Type_ options ≠ "" →
  ChannelOptions.ID options ≠ "" →
  userID ≠ "" →
  live_map w (ChannelOptions.Data options) →
  let l := length (chans w) in
  let c := new_channel (Some cl) options userID in
  ∃ rq w1,
    CreateChannel env (Some cl) options userID w
    = match roundTrip env cl (calls w) (imaps w1) rq with
      | Failed err =>
          Done (Some l, Some err) (with_calls (calls w ++ [rq]) w1)
      | Replied resp =>
          Done (Some l, None)
               (with_chans (chans w ++ [merged resp c])
                  (with_calls (calls w ++ [rq]) w1))
      end ∧
    chans w1 = chans w ++ [c] ∧ calls w1 = calls w ∧
    req_method rq = POST ∧
    req_path rq = channel_path env c ["query"].
Proof.
  intros Ht Hi Hu Hd l c. unfold CreateChannel.
  rewrite !decide_False by done.
  do 2 (erewrite bind_run; last done).
  set (w0 := with_imaps _ _).
  assert (live_map w0 (ChannelOptions.Data options)) as Hd0.
  { destruct (ChannelOptions.Data options) as [d|]; last done.
    destruct Hd as [dm Hdm]. simpl. rewrite lookup_app_l; first by eauto.
    by eapply lookup_lt_Some. }
  assert (live_map w0 (Some (length (imaps w)))) as Ho0.
  { simpl. rewrite lookup_tail0; by eauto. }
  assert (chans w0 !! l = Some c) as Hc0 by (simpl; by apply lookup_tail0).
  pose proof (query_run w0 l c (User.mk userID "" "") cl
                (Some (length (imaps w))) (ChannelOptions.Data options)
                Hc0 eq_refl eq_refl Ho0 Hd0) as Hrun.
  simpl in Hrun.
  exists (query_request env c w0),
         (with_imaps (query_heap w0 (Some (length (imaps w)))
                        (ChannelOptions.Data options) userID) w0).
  split.
  - transitivity
      (match query env (Some l) (Some (length (imaps w)))
               (ChannelOptions.Data options) w0 with
       | Done err w' => Done (Some l, err) w'
       | Panic msg => Panic msg
       end); first reflexivity.
    rewrite Hrun.
    destruct (roundTrip _ _ _ _ _); simpl; first reflexivity.
    unfold with_chans. simpl. by rewrite insert_tail0.
  - done.
Qed.

(** The shape shared by [Update], [AddMembers], [AddModerators] and
    [DemoteModerators]: build a payload, post it, return the error. *)
Lemma post_payload_run (payload : gmap string value) rest w l c cl :
  chans w !! l = Some c →
  Channel.client c = Some cl →
  let w1 := with_imaps (imaps w ++ [payload]) w in
  let rq := {| req_method := POST; req_path := channel_path env c rest;
               req_params := None;
               req_data := VMap (Some (length (imaps w))) |} in
  (data ← make_map payload;
   c ← load (Some l);
   let p := channel_path env c rest in
   r ← Post env (Channel.client c) p None (VMap data);
   mret (reply_err r)) w
  = Done (reply_err (roundTrip env cl (calls w) (imaps w1) rq))
         (with_calls (calls w ++ [rq]) w1).
Proof.
  intros Hc Hcl. do 2 step. rewrite Hcl.
  erewrite bind_run; last apply Post_run. reflexivity.
Qed.

Lemma post_payload_sends (payload : gmap string value) rest w l c cl op :
  chans w !! l = Some c →
  Channel.client c = Some cl →
  op = (data ← make_map payload;
        c ← load (Some l);
        let p := channel_path env c rest in
        r ← Post env (Channel.client c) p None (VMap data);
        mret (reply_err r)) →
  sends_without_merge env op cl w.
Proof.
  intros Hc Hcl ->.
  eexists _, (with_imaps (imaps w ++ [payload]) w).
  split; last done. by apply post_payload_run.
Qed.

Lemma Update_sends w l c cl options message :
  chans w !! l = Some c →
  Channel.client c = Some cl →
  sends_without_merge env (Update env (Some l) options message) cl w.
Proof. intros Hc Hcl. by eapply post_payload_sends. Qed.

Lemma AddMembers_sends w l c cl userIDs :
  chans w !! l = Some c →
  Channel.client c = Some cl →
  userIDs ≠ [] →
  sends_without_merge env (AddMembers env (Some l) userIDs) cl w.
Proof.
  intros Hc Hcl Hu. eapply post_payload_sends; [done..|].
  unfold AddMembers. rewrite decide_False; first done.
  by destruct userIDs.
Qed.

Lemma AddModerators_sends w l c cl userIDs :
  chans w !! l = Some c →
  Channel.client c = Some cl →
  userIDs ≠ [] →
  sends_without_merge env (AddModerators env (Some l) userIDs) cl w.
Proof.
  intros Hc Hcl Hu. eapply post_payload_sends; [done..|].
  unfold AddModerators. rewrite decide_False; first done.
  by destruct userIDs.
Qed.

Lemma DemoteModerators_sends w l c cl userIDs :
  chans w !! l = Some c →
  Channel.client c = Some cl →
  userIDs ≠ [] →
  sends_without_merge env (DemoteModerators env (Some l) userIDs) cl w.
Proof.
  intros Hc Hcl Hu. eapply post_payload_sends; [done..|].
  unfold DemoteModerators. rewrite decide_False; first done.
  by destruct userIDs.
Qed.

Lemma Truncate_sends w l c cl :
  chans w !! l = Some c →
  Channel.client c = Some cl →
  sends_without_merge env (Truncate env (Some l)) cl w.
Proof.
  intros Hc Hcl. eexists _, w. split; last done.
  unfold Truncate. step. rewrite Hcl.
  erewrite bind_run; last apply Post_run. reflexivity.
Qed.

Lemma Channel_Delete_sends w l c cl :
  chans w !! l = Some c →
  Channel.client c = Some cl →
  sends_without_merge env (Channel_Delete env (Some l)) cl w.
Proof.
  intros Hc Hcl. eexists _, w. split; last done.
  unfold Channel_Delete. step. rewrite Hcl.
  erewrite bind_run; last apply Delete_run. reflexivity.
Qed.

Lemma RemoveMembers_sends_then_merges w l c cl userIDs :
  chans w !! l = Some c →
  Channel.client c = Some cl →
  userIDs ≠ [] →
  sends_then_merges env (RemoveMembers env (Some l) userIDs) cl l c w.
Proof.
  intros Hc Hcl Hu.
  exists {| req_method := POST; req_path := channel_path env c [];
            req_params := None; req_data := VMap (Some (length (imaps w))) |},
         (with_imaps (imaps w ++ [ {[ "remove_members" := VStrings userIDs ]} ]) w).
  split; last done.
  unfold RemoveMembers. rewrite decide_False by (by destruct userIDs).
  do 2 step. rewrite Hcl.
  erewrite bind_run; last apply Post_run. simpl.
  destruct (roundTrip _ _ _ _ _) as [err|resp]; first reflexivity.
  erewrite bind_run; last by apply updateChannel_run.
  reflexivity.
Qed.

(** ** Operations that write into the caller's options *)

Lemma MarkRead_nil_options ch userID w :
  userID ≠ "" →
  MarkRead env ch userID None w
  = MarkRead env ch userID (Some (length (imaps w)))
      (with_imaps (imaps w ++ [∅]) w).
Proof. intros Hu. unfold MarkRead. by rewrite !decide_False. Qed.

Lemma MarkRead_run w l c cl o m userID :
  chans w !! l = Some c →
  Channel.client c = Some cl →
  imaps w !! o = Some m →
  userID ≠ "" →
  let n := length (imaps w) in
  let w1 := with_imaps (<[o := <["user" := VMap (Some n)]> m]> (imaps w)
                          ++ [ {[ "id" := VString userID ]} ]) w in
  let rq := {| req_method := POST; req_path := channel_path env c ["read"];
               req_params := None; req_data := VMap (Some o) |} in
  MarkRead env (Some l) userID (Some o) w
  = Done (reply_err (roundTrip env cl (calls w) (imaps w1) rq))
         (with_calls (calls w ++ [rq]) w1).
Proof.
  intros Hc Hcl Ho Hu. unfold MarkRead. rewrite decide_False by done.
  do 4 step. rewrite Hcl.
  erewrite bind_run; last apply Post_run. reflexivity.
Qed.

Lemma BanUser_nil_options ch targetID userID w :
  targetID ≠ "" → userID ≠ "" →
  BanUser env ch targetID userID None w
  = BanUser env ch targetID userID (Some (length (imaps w)))
      (with_imaps (imaps w ++ [∅]) w).
Proof. intros Ht Hu. unfold BanUser. by rewrite !decide_False. Qed.

Lemma BanUser_run w l c cl o m targetID userID :
  chans w !! l = Some c →
  Channel.client c = Some cl →
  imaps w !! o = Some m →
  targetID ≠ "" → userID ≠ "" →
  let m' := <["user_id" := VString userID]>
              (<["target_user_id" := VString targetID]>
                 (<["id" := VString (Channel.ID c)]>
                    (<["type" := VString (Channel.Type_ c)]> m))) in
  let w1 := with_imaps (<[o := m']> (imaps w)) w in
  let rq := {| req_method := POST; req_path := "moderation/ban";
               req_params := None; req_data := VMap (Some o) |} in
  BanUser env (Some l) targetID userID (Some o) w
  = Done (reply_err (roundTrip env cl (calls w) (imaps w1) rq))
         (with_calls (calls w ++ [rq]) w1).
Proof.
  intros Hc Hcl Ho Ht Hu. unfold BanUser. rewrite !decide_False by done.
  do 6 step. rewrite Hcl.
  erewrite bind_run; last apply Post_run. reflexivity.
Qed.

Lemma UnBanUser_nil_options ch targetID w :
  targetID ≠ "" →
  UnBanUser env ch targetID None w
  = UnBanUser env ch targetID (Some (length (smaps w)))
      (with_smaps (smaps w ++ [∅]) w).
Proof. intros Ht. unfold UnBanUser. by rewrite !decide_False. Qed.

Lemma UnBanUser_run w l c cl o m targetID :
  chans w !! l = Some c →
  Channel.client c = Some cl →
  smaps w !! o = Some m →
  targetID ≠ "" →
  let m' := <["target_user_id" := targetID]>
              (<["id" := Channel.ID c]>
                 (<["type" := Channel.Type_ c]> m)) in
  let w1 := with_smaps (<[o := m']> (smaps w)) w in
  let rq := {| req_method := DELETE; req_path := "moderation/ban";
               req_params := Some ((λ v, [v]) <$> m'); req_data := VNil |} in
  UnBanUser env (Some l) targetID (Some o) w
  = Done (reply_err (roundTrip env cl (calls w) (imaps w1) rq))
         (with_calls (calls w ++ [rq]) w1).
Proof.
  intros Hc Hcl Ho Ht. unfold UnBanUser. rewrite decide_False by done.
  do 6 step. rewrite Hcl, params_of_options.
  erewrite bind_run; last apply Delete_run. reflexivity.
Qed.

End Runs.

(** ** From one call to the frame of the handle *)

Section Frames.

Variable env : Env.

Lemma sends_without_merge_keeps op cl l c w :
  chans w !! l = Some c →
  sends_without_merge env op cl w →
  keeps_handle_lists op l c w.
Proof.
  intros Hc (rq & w1 & Hop & Hch & _).
  eexists _, _, c. split; first apply Hop.
  split; last done. simpl. by rewrite Hch.
Qed.

Lemma sends_without_merge_fails op cl w :
  sends_without_merge env op cl w →
  fails_without_change env op cl w.
Proof.
  intros (rq & w1 & Hop & Hch & Hca).
  exists rq, w1. repeat split; try done.
  - by eexists _, _.
  - intros err Hf. by rewrite Hop, Hf.
Qed.

Lemma sends_then_merges_fails op cl l c w :
  sends_then_merges env op cl l c w →
  fails_without_change env op cl w.
Proof.
  intros (rq & w1 & Hop & Hch & Hca).
  exists rq, w1. repeat split; try done.
  - rewrite Hop. destruct (roundTrip _ _ _ _ _); by eexists _, _.
  - intros err Hf. by rewrite Hop, Hf.
Qed.

Lemma live_map_inv w r :
  live_map w r →
  r = None ∨ ∃ o m, r = Some o ∧ imaps w !! o = Some m.
Proof. destruct r as [o|]; [intros [m Hm]|]; eauto. Qed.

Lemma live_smap_inv w r :
  live_smap w r →
  r = None ∨ ∃ o m, r = Some o ∧ smaps w !! o = Some m.
Proof. destruct r as [o|]; [intros [m Hm]|]; eauto. Qed.

(** An operation that first allocates and then continues as [op'] makes
    the call that [op'] makes. *)
Lemma sends_without_merge_after op op' cl w w0 :
  op w = op' w0 →
  chans w0 = chans w →
  calls w0 = calls w →
  sends_without_merge env op' cl w0 →
  sends_without_merge env op cl w.
Proof.
  intros Hop Hch Hca (rq & w1 & Hop' & Hch1 & Hca1).
  exists rq, w1. rewrite Hop, Hop', Hca. split; first done.
  split; congruence.
Qed.

Lemma MarkRead_sends w l c cl userID options :
  chans w !! l = Some c →
  Channel.client c = Some cl →
  userID ≠ "" →
  live_map w options →
  sends_without_merge env (MarkRead env (Some l) userID options) cl w.
Proof.
  intros Hc Hcl Hu [->|(o & m & -> & Ho)]%live_map_inv.
  - eapply sends_without_merge_after;
      [by apply MarkRead_nil_options|done|done|].
    eexists _, _.
    split; [eapply MarkRead_run; try done; simpl; by apply lookup_tail0|done].
  - eexists _, _. split; first by eapply MarkRead_run. done.
Qed.

Lemma BanUser_sends w l c cl targetID userID options :
  chans w !! l = Some c →
  Channel.client c = Some cl →
  targetID ≠ "" → userID ≠ "" →
  live_map w options →
  sends_without_merge env (BanUser env (Some l) targetID userID options) cl w.
Proof.
  intros Hc Hcl Ht Hu [->|(o & m & -> & Ho)]%live_map_inv.
  - eapply sends_without_merge_after;
      [by apply BanUser_nil_options|done|done|].
    eexists _, _.
    split; [eapply BanUser_run; try done; simpl; by apply lookup_tail0|done].
  - eexists _, _. split; first by eapply BanUser_run. done.
Qed.

Lemma UnBanUser_sends w l c cl targetID options :
  chans w !! l = Some c →
  Channel.client c = Some cl →
  targetID ≠ "" →
  live_smap w options →
  sends_without_merge env (UnBanUser env (Some l) targetID options) cl w.
Proof.
  intros Hc Hcl Ht [->|(o & m & -> & Ho)]%live_smap_inv.
  - eapply sends_without_merge_after;
      [by apply UnBanUser_nil_options|done|done|].
    eexists _, _.
    split; [eapply UnBanUser_run; try done; simpl; by apply lookup_tail0|done].
  - eexists _, _. split; first by eapply UnBanUser_run. done.
Qed.

End Frames.

(** ** Operations that do not merge: claims C4, C5 and C6 *)

(** C4: with valid arguments, Update, AddModerators, DemoteModerators,
    MarkRead, BanUser and UnBanUser make one transport call, return its
    error, and leave the handle's Members, Messages and Read (indeed every
    channel cell) as they were, whatever the transport answered: none of
    them merges. *)
Theorem no_merge_operations_keep_lists env w l c cl options soptions
    message userIDs targetID userID :
  chans w !! l = Some c →
  Channel.client c = Some cl →
  userIDs ≠ [] → targetID ≠ "" → userID ≠ "" →
  live_map w options → live_smap w soptions →
  let no_merge op :=
    sends_without_merge env op cl w ∧ keeps_handle_lists op l c w in
  no_merge (Update env (Some l) options message) ∧
  no_merge (AddModerators env (Some l) userIDs) ∧
  no_merge (DemoteModerators env (Some l) userIDs) ∧
  no_merge (MarkRead env (Some l) userID options) ∧
  no_merge (BanUser env (Some l) targetID userID options) ∧
  no_merge (UnBanUser env (Some l) targetID soptions).
Proof.
  intros Hc Hcl Hids Ht Hu Ho Hso no_merge.
  assert (∀ op, sends_without_merge env op cl w → no_merge op) as Hno.
  { intros op Hop. split; first done.
    by eapply sends_without_merge_keeps. }
  split; [apply Hno; by eapply Update_sends|].
  split; [apply Hno; by eapply AddModerators_sends|].
  split; [apply Hno; by eapply DemoteModerators_sends|].
  split; [apply Hno; by eapply MarkRead_sends|].
  split; [apply Hno; by eapply BanUser_sends|].
  apply Hno. by eapply UnBanUser_sends.
Qed.

Lemma no_merge_operations_keep_lists_witness :
  let env := ex_answering ex_channel_and_members in
  let w := ex_world_maps in
  let no_merge op :=
    sends_without_merge env op 7 w ∧ keeps_handle_lists op 0 ex_prev w in
  no_merge (Update env (Some 0) (Some 0) "color is blue") ∧
  no_merge (AddModerators env (Some 0) ["bob"]) ∧
  no_merge (DemoteModerators env (Some 0) ["bob"]) ∧
  no_merge (MarkRead env (Some 0) "alice" (Some 0)) ∧
  no_merge (BanUser env (Some 0) "bob" "alice" (Some 0)) ∧
  no_merge (UnBanUser env (Some 0) "bob" (Some 0)).
Proof.
  apply (no_merge_operations_keep_lists
           (ex_answering ex_channel_and_members) ex_world_maps 0 ex_prev 7
           (Some 0) (Some 0) "color is blue" ["bob"] "bob" "alice");
    first [reflexivity | discriminate | by eexists].
Defined.

(** C5: with an empty user-ID list, AddMembers, RemoveMembers,
    AddModerators and DemoteModerators return the validation error and
    leave the whole world as it was: no transport call is recorded and no
    channel cell is written.  This holds for every handle, nil included. *)
Theorem empty_user_IDs_fail_closed env ch w :
  AddMembers env ch [] w = Done (errors_New "user IDs are empty") w ∧
  RemoveMembers env ch [] w = Done (errors_New "user IDs are empty") w ∧
  AddModerators env ch [] w = Done (errors_New "user IDs are empty") w ∧
  DemoteModerators env ch [] w = Done (errors_New "user IDs are empty") w.
Proof. repeat split. Qed.

(** C6: every operation makes one transport call and, when that call
    returns an error, returns the error and leaves every channel cell as
    it was; query and RemoveMembers, the two that merge, do not reach the
    merge.  CreateChannel then returns the error with a handle that holds
    the record it built, unmerged, next to the cells that were there. *)
Theorem failed_transport_leaves_channel env w l c cl options data
    soptions coptions message userIDs targetID userID :
  chans w !! l = Some c →
  Channel.client c = Some cl →
  userIDs ≠ [] → targetID ≠ "" → userID ≠ "" →
  live_map w options → live_map w data → live_smap w soptions →
  ChannelOptions.Type_ coptions ≠ "" →
  ChannelOptions.ID coptions ≠ "" →
  live_map w (ChannelOptions.Data coptions) →
  (Channel.CreatedBy c ≠ None →
   fails_without_change env (query env (Some l) options data) cl w) ∧
  (Channel.CreatedBy c ≠ None →
   fails_without_change env (refresh env (Some l)) cl w) ∧
  fails_without_change env (RemoveMembers env (Some l) userIDs) cl w ∧
  fails_without_change env (Update env (Some l) options message) cl w ∧
  fails_without_change env (Channel_Delete env (Some l)) cl w ∧
  fails_without_change env (Truncate env (Some l)) cl w ∧
  fails_without_change env (AddMembers env (Some l) userIDs) cl w ∧
  fails_without_change env (AddModerators env (Some l) userIDs) cl w ∧
  fails_without_change env (DemoteModerators env (Some l) userIDs) cl w ∧
  fails_without_change env (MarkRead env (Some l) userID options) cl w ∧
  fails_without_change env (BanUser env (Some l) targetID userID options) cl w ∧
  fails_without_change env (UnBanUser env (Some l) targetID soptions) cl w ∧
  ∃ rq ims,
    (∃ r w', CreateChannel env (Some cl) coptions userID w = Done r w' ∧
             calls w' = calls w ++ [rq]) ∧
    ∀ err, roundTrip env cl (calls w) ims rq = Failed err →
      ∃ w', CreateChannel env (Some cl) coptions userID w
            = Done (Some (length (chans w)), Some err) w' ∧
            chans w' = chans w ++ [new_channel (Some cl) coptions userID].
Proof.
  intros Hc Hcl Hids Ht Hu Ho Hd Hso Hct Hci Hcd.
  split; [|split].
  { intros Hcb. destruct (Channel.CreatedBy c) as [u|] eqn:Hu'; last done.
    eapply sends_then_merges_fails.
    by eapply query_sends_then_merges. }
  { intros Hcb. destruct (Channel.CreatedBy c) as [u|] eqn:Hu'; last done.
    eapply sends_then_merges_fails.
    by eapply refresh_sends_then_merges. }
  split.
  { eapply sends_then_merges_fails.
    by eapply RemoveMembers_sends_then_merges. }
  split; [eapply sends_without_merge_fails; by eapply Update_sends|].
  split; [eapply sends_without_merge_fails; by eapply Channel_Delete_sends|].
  split; [eapply sends_without_merge_fails; by eapply Truncate_sends|].
  split; [eapply sends_without_merge_fails; by eapply AddMembers_sends|].
  split; [eapply sends_without_merge_fails; by eapply AddModerators_sends|].
  split; [eapply sends_without_merge_fails; by eapply DemoteModerators_sends|].
  split; [eapply sends_without_merge_fails; by eapply MarkRead_sends|].
  split; [eapply sends_without_merge_fails; by eapply BanUser_sends|].
  split; [eapply sends_without_merge_fails; by eapply UnBanUser_sends|].
  destruct (CreateChannel_run env cl coptions userID w)
    as (rq & w1 & Hrun & Hch & Hca & _); try done.
  exists rq, (imaps w1). split.
  - rewrite Hrun. destruct (roundTrip _ _ _ _ _); by eexists _, _.
  - intros err Hf. rewrite Hrun, Hf. by eexists.
Qed.

Lemma failed_transport_leaves_channel_witness :
  let env := ex_failing in
  let w := ex_world_maps in
  (∃ w', query env (Some 0) None (Some 1) w
         = Done (Some "connection refused") w' ∧ chans w' = chans w) ∧
  (∃ w', RemoveMembers env (Some 0) ["bob"] w
         = Done (Some "connection refused") w' ∧ chans w' = chans w) ∧
  (∃ w', BanUser env (Some 0) "bob" "alice" None w
         = Done (Some "connection refused") w' ∧ chans w' = chans w).
Proof.
  destruct (failed_transport_leaves_channel ex_failing ex_world_maps 0
              ex_prev 7 None (Some 1) (Some 0)
              (ChannelOptions.mk "general" "messaging" None)
              "color is blue" ["bob"] "bob" "alice")
    as (Hq & _ & Hrm & _ & _ & _ & _ & _ & _ & _ & Hb & _);
    try first [reflexivity | discriminate | by eexists | exact I].
  destruct Hq as (rq1 & w1 & Hch1 & _ & _ & Hq); first discriminate.
  destruct Hrm as (rq2 & w2 & Hch2 & _ & _ & Hrm).
  destruct Hb as (rq3 & w3 & Hch3 & _ & _ & Hb).
  split; [|split]; eexists.
  - split; [apply Hq; reflexivity | exact Hch1].
  - split; [apply Hrm; reflexivity | exact Hch2].
  - split; [apply Hb; reflexivity | exact Hch3].
Defined.

(** ** Moderation requests and the caller's maps: claims C8 and C10 *)

(** C8: BanUser posts to the fixed path moderation/ban a body map that
    holds type, id, target_user_id and user_id (the channel's type and ID,
    the target and the acting user) next to the caller's other options;
    UnBanUser sends a DELETE to moderation/ban with type, id and
    target_user_id among the query parameters and a nil body. *)
Theorem ban_and_unban_requests env w l c cl targetID userID options soptions :
  chans w !! l = Some c →
  Channel.client c = Some cl →
  targetID ≠ "" → userID ≠ "" →
  live_map w options → live_smap w soptions →
  (∃ e w' r body,
     BanUser env (Some l) targetID userID options w = Done e w' ∧
     calls w' = calls w ++ [ {| req_method := POST;
                                req_path := "moderation/ban";
                                req_params := None;
                                req_data := VMap (Some r) |} ] ∧
     imaps w' !! r = Some body ∧
     body !! "type" = Some (VString (Channel.Type_ c)) ∧
     body !! "id" = Some (VString (Channel.ID c)) ∧
     body !! "target_user_id" = Some (VString targetID) ∧
     body !! "user_id" = Some (VString userID) ∧
     ∀ k, k ≠ "type" → k ≠ "id" → k ≠ "target_user_id" → k ≠ "user_id" →
          body !! k = map_of w options !! k) ∧
  (∃ e w' params,
     UnBanUser env (Some l) targetID soptions w = Done e w' ∧
     calls w' = calls w ++ [ {| req_method := DELETE;
                                req_path := "moderation/ban";
                                req_params := Some params;
                                req_data := VNil |} ] ∧
     params !! "type" = Some [Channel.Type_ c] ∧
     params !! "id" = Some [Channel.ID c] ∧
     params !! "target_user_id" = Some [targetID] ∧
     ∀ k, k ≠ "type" → k ≠ "id" → k ≠ "target_user_id" →
          params !! k = (λ v, [v]) <$> (smap_of w soptions !! k)).
Proof.
  intros Hc Hcl Ht Hu Ho Hso. split.
  - assert (∃ w0 r, BanUser env (Some l) targetID userID options w
                    = BanUser env (Some l) targetID userID (Some r) w0 ∧
                    chans w0 = chans w ∧ calls w0 = calls w ∧
                    imaps w0 !! r = Some (map_of w options))
      as (w0 & r & -> & Hch & Hca & Hr).
    { apply live_map_inv in Ho as [->|(o & m & -> & Hm)].
      - eexists _, _. split; first by apply BanUser_nil_options.
        repeat split. simpl. by apply lookup_tail0.
      - exists w, o. simpl. by rewrite Hm. }
    rewrite <- Hch in Hc.
    rewrite (BanUser_run env w0 l c cl r _ targetID userID Hc Hcl Hr Ht Hu).
    eexists _, _, r, _. split; first done.
    split; first by rewrite <- Hca.
    split.
    { simpl. apply list_lookup_insert_eq. by eapply lookup_lt_Some. }
    repeat split; try by simplify_map_eq.
    intros k ????. by rewrite !lookup_insert_ne.
  - assert (∃ w0 r, UnBanUser env (Some l) targetID soptions w
                    = UnBanUser env (Some l) targetID (Some r) w0 ∧
                    chans w0 = chans w ∧ calls w0 = calls w ∧
                    smaps w0 !! r = Some (smap_of w soptions))
      as (w0 & r & -> & Hch & Hca & Hr).
    { apply live_smap_inv in Hso as [->|(o & m & -> & Hm)].
      - eexists _, _. split; first by apply UnBanUser_nil_options.
        repeat split. simpl. by apply lookup_tail0.
      - exists w, o. simpl. by rewrite Hm. }
    rewrite <- Hch in Hc.
    rewrite (UnBanUser_run env w0 l c cl r _ targetID Hc Hcl Hr Ht).
    eexists _, _, _. split; first done.
    split; first by rewrite <- Hca.
    repeat split; try by (rewrite lookup_fmap; simplify_map_eq).
    intros k ???. by rewrite !lookup_fmap, !lookup_insert_ne.
Qed.

Lemma ban_and_unban_requests_witness :
  let env := ex_answering ex_members_only in
  let w := ex_world_maps in
  (∃ e w' r body,
     BanUser env (Some 0) "bob" "alice" (Some 0) w = Done e w' ∧
     calls w' = [ {| req_method := POST; req_path := "moderation/ban";
                     req_params := None; req_data := VMap (Some r) |} ] ∧
     imaps w' !! r = Some body ∧
     body !! "type" = Some (VString "messaging") ∧
     body !! "id" = Some (VString "general") ∧
     body !! "target_user_id" = Some (VString "bob") ∧
     body !! "user_id" = Some (VString "alice") ∧
     ∀ k, k ≠ "type" → k ≠ "id" → k ≠ "target_user_id" → k ≠ "user_id" →
          body !! k = ex_ban_options !! k) ∧
  (∃ e w' params,
     UnBanUser env (Some 0) "bob" None w = Done e w' ∧
     calls w' = [ {| req_method := DELETE; req_path := "moderation/ban";
                     req_params := Some params; req_data := VNil |} ] ∧
     params !! "type" = Some ["messaging"] ∧
     params !! "id" = Some ["general"] ∧
     params !! "target_user_id" = Some ["bob"] ∧
     ∀ k, k ≠ "type" → k ≠ "id" → k ≠ "target_user_id" →
          params !! k = (λ v, [v]) <$> ((∅ : gmap string string) !! k)).
Proof.
  apply (ban_and_unban_requests (ex_answering ex_members_only) ex_world_maps
           0 ex_prev 7 "bob" "alice" (Some 0) None);
    first [reflexivity | discriminate | by eexists | done].
Defined.

(** C10: BanUser, UnBanUser and MarkRead write into the map the caller
    passed: after the call its entries are the caller's with the
    operation's entries laid over them, so a value the caller had under
    one of those keys is overwritten; query likewise stores created_by in
    the caller's data map. *)
Theorem operations_write_into_callers_map env w l c cl o m so sm d dm
    qoptions targetID userID :
  chans w !! l = Some c →
  Channel.client c = Some cl →
  targetID ≠ "" → userID ≠ "" →
  imaps w !! o = Some m →
  smaps w !! so = Some sm →
  imaps w !! d = Some dm →
  live_map w qoptions →
  (∃ e w',
     BanUser env (Some l) targetID userID (Some o) w = Done e w' ∧
     imaps w' !! o
     = Some (<["user_id" := VString userID]>
               (<["target_user_id" := VString targetID]>
                  (<["id" := VString (Channel.ID c)]>
                     (<["type" := VString (Channel.Type_ c)]> m))))) ∧
  (∃ e w',
     UnBanUser env (Some l) targetID (Some so) w = Done e w' ∧
     smaps w' !! so
     = Some (<["target_user_id" := targetID]>
               (<["id" := Channel.ID c]>
                  (<["type" := Channel.Type_ c]> sm)))) ∧
  (∃ e w' u,
     MarkRead env (Some l) userID (Some o) w = Done e w' ∧
     imaps w' !! o = Some (<["user" := VMap (Some u)]> m) ∧
     imaps w' !! u = Some {[ "id" := VString userID ]}) ∧
  (∀ creator, Channel.CreatedBy c = Some creator →
     ∃ e w' k,
       query env (Some l) qoptions (Some d) w = Done e w' ∧
       imaps w' !! d = Some (<["created_by" := VMap (Some k)]> dm) ∧
       imaps w' !! k = Some {[ "id" := VString (User.ID creator) ]}).
Proof.
  intros Hc Hcl Ht Hu Ho Hso Hd Hq.
  pose proof (lookup_lt_Some _ _ _ Ho) as Hol.
  pose proof (lookup_lt_Some _ _ _ Hso) as Hsol.
  pose proof (lookup_lt_Some _ _ _ Hd) as Hdl.
  split; [|split; [|split]].
  - eexists _, _. split; first by eapply BanUser_run.
    simpl. by apply list_lookup_insert_eq.
  - eexists _, _. split; first by eapply UnBanUser_run.
    simpl. by apply list_lookup_insert_eq.
  - eexists _, _, _. split; first by eapply MarkRead_run.
    simpl. split.
    + rewrite lookup_app_l by (by rewrite length_insert).
      by apply list_lookup_insert_eq.
    + apply lookup_tail0. by rewrite length_insert.
  - intros creator Hcb.
    assert (live_map w (Some d)) as Hld by (by eexists).
    pose proof (query_run env w l c creator cl qoptions (Some d)
                  Hc Hcb Hcl Hq Hld) as Hrun.
    simpl in Hrun. rewrite Hd in Hrun. simpl in Hrun.
    assert (∀ w', imaps w'
                  = <[d := <["created_by" := VMap (Some (S (length (imaps w))))]> dm]>
                      (imaps w)
                    ++ [ <["data" := VMap (Some d)]>
                           (map_of w qoptions ∪ {[ "state" := VBool true ]});
                         {[ "id" := VString (User.ID creator) ]} ] →
            imaps w' !! d
            = Some (<["created_by" := VMap (Some (S (length (imaps w))))]> dm) ∧
            imaps w' !! S (length (imaps w))
            = Some {[ "id" := VString (User.ID creator) ]}) as Hheap.
    { intros w' ->. split.
      - rewrite lookup_app_l by (by rewrite length_insert).
        by apply list_lookup_insert_eq.
      - apply lookup_tail1. by rewrite length_insert. }
    destruct (roundTrip _ _ _ _ _) as [err|resp];
      eexists _, _, _; (split; first apply Hrun); by apply Hheap.
Qed.

Lemma operations_write_into_callers_map_witness :
  let env := ex_answering ex_members_only in
  let w := ex_world_maps in
  (∃ e w',
     BanUser env (Some 0) "bob" "alice" (Some 0) w = Done e w' ∧
     imaps w' !! 0
     = Some (<["user_id" := VString "alice"]>
               (<["target_user_id" := VString "bob"]>
                  (<["id" := VString "general"]>
                     (<["type" := VString "messaging"]> ex_ban_options))))) ∧
  (∃ e w',
     UnBanUser env (Some 0) "bob" (Some 0) w = Done e w' ∧
     smaps w' !! 0
     = Some (<["target_user_id" := "bob"]>
               (<["id" := "general"]>
                  (<["type" := "messaging"]> ex_unban_options)))) ∧
  (∃ e w' u,
     MarkRead env (Some 0) "alice" (Some 0) w = Done e w' ∧
     imaps w' !! 0 = Some (<["user" := VMap (Some u)]> ex_ban_options) ∧
     imaps w' !! u = Some {[ "id" := VString "alice" ]}) ∧
  (∃ e w' k,
     query env (Some 0) None (Some 1) w = Done e w' ∧
     imaps w' !! 1 = Some (<["created_by" := VMap (Some k)]> ex_members_data) ∧
     imaps w' !! k = Some {[ "id" := VString "alice" ]}).
Proof.
  destruct (operations_write_into_callers_map
              (ex_answering ex_members_only) ex_world_maps 0 ex_prev 7
              0 ex_ban_options 0 ex_unban_options 1 ex_members_data None
              "bob" "alice")
    as (Hb & Hu & Hm & Hq);
    try first [reflexivity | discriminate | done].
  repeat split; [apply Hb | apply Hu | apply Hm |].
  apply (Hq (ex_user "alice")). reflexivity.
Defined.

(** ** The creator dereference and channel creation: claims C9 and C3 *)

Lemma refresh_nil_CreatedBy env w l c :
  chans w !! l = Some c →
  Channel.CreatedBy c = None →
  refresh env (Some l) w = Panic nil_deref.
Proof.
  intros Hc Hcb. rewrite refresh_eq.
  eapply query_nil_CreatedBy; try done.
  simpl. rewrite lookup_tail0; by eauto.
Qed.

(** C9: query, and refresh through it, reads ch.CreatedBy.ID without a
    nil check.  On a live handle whose CreatedBy is nil both panic with a
    nil dereference; on a handle whose CreatedBy and client are set both
    return.  A handle with a nil CreatedBy is reachable: CreateChannel
    with valid arguments makes its one call, and when that call is
    answered by an envelope whose channel object has no created_by it
    returns a nil error and a live handle that holds the envelope merged
    into the record it built, with the client it was given and a nil
    CreatedBy; the next refresh on that handle panics with the nil
    dereference. *)
Theorem query_dereferences_CreatedBy env w l c options data :
  chans w !! l = Some c →
  live_map w options → live_map w data →
  (Channel.CreatedBy c = None →
   query env (Some l) options data w = Panic nil_deref ∧
   refresh env (Some l) w = Panic nil_deref) ∧
  (Channel.CreatedBy c ≠ None → Channel.client c ≠ None →
   (∃ e w', query env (Some l) options data w = Done e w') ∧
   (∃ e w', refresh env (Some l) w = Done e w')) ∧
  (∀ cl coptions userID,
     ChannelOptions.Type_ coptions ≠ "" →
     ChannelOptions.ID coptions ≠ "" →
     userID ≠ "" →
     live_map w (ChannelOptions.Data coptions) →
     let h := length (chans w) in
     ∃ rq ims,
       (∃ r w', CreateChannel env (Some cl) coptions userID w = Done r w' ∧
                calls w' = calls w ++ [rq]) ∧
       ∀ resp qc,
         roundTrip env cl (calls w) ims rq = Replied resp →
         queryResponse.Channel resp = Some qc →
         Channel.CreatedBy qc = None →
         ∃ w' c',
           CreateChannel env (Some cl) coptions userID w
           = Done (Some h, None) w' ∧
           chans w' !! h = Some c' ∧
           c' = merged resp (new_channel (Some cl) coptions userID) ∧
           Channel.CreatedBy c' = None ∧
           Channel.client c' = Some cl ∧
           refresh env (Some h) w' = Panic nil_deref).
Proof.
  intros Hc Ho Hd. split; [|split].
  - intros Hcb. split.
    + by apply query_nil_CreatedBy with c.
    + by apply refresh_nil_CreatedBy with c.
  - intros Hcb Hcl.
    destruct (Channel.CreatedBy c) as [u|] eqn:Hu; last done.
    destruct (Channel.client c) as [cl|] eqn:Hcl'; last done.
    split.
    + destruct (query_sends_then_merges env w l c u cl options data)
        as (rq & w1 & Hq & _); try done.
      rewrite Hq. destruct (roundTrip _ _ _ _ _); by eexists _, _.
    + destruct (refresh_sends_then_merges env w l c u cl)
        as (rq & w1 & Hq & _); try done.
      rewrite Hq. destruct (roundTrip _ _ _ _ _); by eexists _, _.
  - intros cl coptions userID Ht Hi Hu Hcd h.
    destruct (CreateChannel_run env cl coptions userID w)
      as (rq & w1 & Hrun & Hch & Hca & _); try done.
    exists rq, (imaps w1). split.
    + rewrite Hrun. destruct (roundTrip _ _ _ _ _); by eexists _, _.
    + intros resp qc Hresp Hqc Hcb. rewrite Hresp in Hrun.
      set (c' := merged resp (new_channel (Some cl) coptions userID)) in *.
      assert (Channel.CreatedBy c' = None ∧ Channel.client c' = Some cl)
        as [Hcb' Hcl'].
      { subst c'. unfold merged. rewrite Hqc.
        by destruct (queryResponse.Members resp),
          (queryResponse.Messages resp), (queryResponse.Read resp). }
      eexists _, c'. split; first exact Hrun.
      split; first (simpl; by apply lookup_tail0).
      split; first done. split; first done. split; first done.
      eapply refresh_nil_CreatedBy; last exact Hcb'.
      simpl. by apply lookup_tail0.
Qed.

Lemma query_dereferences_CreatedBy_witness :
  let stale := with_chans [ex_no_creator] ex_world_maps in
  let env := ex_answering ex_no_creator_envelope in
  let coptions := ChannelOptions.mk "general" "messaging" None in
  (query env (Some 0) None (Some 1) stale = Panic nil_deref ∧
   refresh env (Some 0) stale = Panic nil_deref) ∧
  ((∃ e w', query env (Some 0) None (Some 1) ex_world_maps = Done e w') ∧
   (∃ e w', refresh env (Some 0) ex_world_maps = Done e w')) ∧
  (∃ w' c',
     CreateChannel env (Some 7) coptions "alice" ex_world_maps
     = Done (Some 1, None) w' ∧
     chans w' !! 1 = Some c' ∧
     c' = merged ex_no_creator_envelope (new_channel (Some 7) coptions "alice") ∧
     Channel.CreatedBy c' = None ∧
     Channel.client c' = Some 7 ∧
     refresh env (Some 1) w' = Panic nil_deref).
Proof.
  assert (live_map ex_world_maps (Some 1)) as Hlive by (by eexists).
  assert ("messaging" ≠ "") as Ht by discriminate.
  assert ("general" ≠ "") as Hi by discriminate.
  assert ("alice" ≠ "") as Hu by discriminate.
  split; [|split].
  - destruct (query_dereferences_CreatedBy
                (ex_answering ex_no_creator_envelope)
                (with_chans [ex_no_creator] ex_world_maps) 0 ex_no_creator
                None (Some 1) eq_refl I Hlive) as (H & _).
    exact (H eq_refl).
  - destruct (query_dereferences_CreatedBy
                (ex_answering ex_no_creator_envelope)
                ex_world_maps 0 ex_prev None (Some 1) eq_refl I Hlive)
      as (_ & H & _).
    apply H; discriminate.
  - destruct (query_dereferences_CreatedBy
                (ex_answering ex_no_creator_envelope)
                ex_world_maps 0 ex_prev None (Some 1) eq_refl I Hlive)
      as (_ & _ & H).
    destruct (H 7 (ChannelOptions.mk "general" "messaging" None) "alice"
                Ht Hi Hu I) as (rq & ims & _ & Hr).
    exact (Hr ex_no_creator_envelope ex_no_creator eq_refl eq_refl eq_refl).
Defined.

(** C3, as stated, fails in its last part: with an empty ID and members in
    the extra data, CreateChannel does not reach the server; it returns
    the error "channel ID is empty" and no handle, although the transport
    would have answered. *)
Lemma CreateChannel_empty_ID_with_members_errors :
  let env := ex_answering ex_existing_envelope in
  let options := ChannelOptions.mk "" "messaging" (Some 1) in
  imaps ex_world_maps !! 1 = Some {[ "members" := VStrings ["bob"; "carol"] ]} ∧
  CreateChannel env (Some 7) options "alice" ex_world_maps
  = Done (None, Some "channel ID is empty") ex_world_maps ∧
  ¬ ∃ ch w', CreateChannel env (Some 7) options "alice" ex_world_maps
             = Done (ch, None) w'.
Proof.
  repeat split. intros (ch & w' & H). discriminate H.
Qed.

(** C3, amended: CreateChannel with a non-empty type, ID and user ID posts
    one query for the channel; when the transport answers, as the server
    does for an ID that already exists, it returns a nil error and a
    handle that holds the answer merged into the record it built, so the
    answer's member count and members; when the transport fails it returns
    that error.  CreateChannel with an empty ID returns the error
    "channel ID is empty" without a transport call, whether or not the
    extra data holds members. *)
Theorem CreateChannel_create_or_get env client options userID w :
  ChannelOptions.Type_ options ≠ "" →
  userID ≠ "" →
  live_map w (ChannelOptions.Data options) →
  (ChannelOptions.ID options = "" →
   CreateChannel env client options userID w
   = Done (None, errors_New "channel ID is empty") w) ∧
  (∀ cl, ChannelOptions.ID options ≠ "" → client = Some cl →
   let l := length (chans w) in
   let c := new_channel client options userID in
   ∃ rq ims,
     req_method rq = POST ∧
     req_path rq = channel_path env c ["query"] ∧
     match roundTrip env cl (calls w) ims rq with
     | Failed err =>
         ∃ w', CreateChannel env client options userID w
               = Done (Some l, Some err) w' ∧
               calls w' = calls w ++ [rq]
     | Replied resp =>
         ∃ w' c',
           CreateChannel env client options userID w
           = Done (Some l, None) w' ∧
           calls w' = calls w ++ [rq] ∧
           chans w' !! l = Some c' ∧
           c' = merged resp c ∧
           Channel.client c' = client ∧
           (∀ qc, queryResponse.Channel resp = Some qc →
                  Channel.ID c' = Channel.ID qc ∧
                  Channel.MemberCount c' = Channel.MemberCount qc) ∧
           (∀ ms, queryResponse.Members resp = Some ms →
                  Channel.Members c' = Some ms)
     end).
Proof.
  intros Ht Hu Hd. split.
  - intros Hi. unfold CreateChannel.
    rewrite decide_False by done. by rewrite decide_True.
  - intros cl Hi -> l c.
    destruct (CreateChannel_run env cl options userID w)
      as (rq & w1 & Hrun & Hch & Hca & Hm & Hp); try done.
    exists rq, (imaps w1). split; first done. split; first done.
    rewrite Hrun. destruct (roundTrip _ _ _ _ _) as [err|resp].
    + by eexists.
    + eexists _, _. split; first done.
      split; first done.
      split; first (simpl; by apply lookup_tail0).
      split; first done.
      unfold merged.
      destruct (queryResponse.Channel resp), (queryResponse.Members resp),
        (queryResponse.Messages resp), (queryResponse.Read resp);
        repeat split; intros; simplify_eq; done.
Qed.

Lemma CreateChannel_create_or_get_witness :
  let env := ex_answering ex_existing_envelope in
  let options := ChannelOptions.mk "general" "messaging" None in
  ∃ rq ims,
    roundTrip env 7 [] ims rq = Replied ex_existing_envelope ∧
    ∃ w' c',
      CreateChannel env (Some 7) options "alice" ex_empty
      = Done (Some 0, None) w' ∧
      calls w' = [rq] ∧
      chans w' !! 0 = Some c' ∧
      c' = merged ex_existing_envelope (new_channel (Some 7) options "alice") ∧
      Channel.client c' = Some 7 ∧
      (∀ qc, Some ex_remote = Some qc →
             Channel.ID c' = Channel.ID qc ∧
             Channel.MemberCount c' = Channel.MemberCount qc) ∧
      (∀ ms, Some [Some (ex_member "alice"); Some (ex_member "bob")] = Some ms →
             Channel.Members c' = Some ms).
Proof.
  destruct (CreateChannel_create_or_get (ex_answering ex_existing_envelope)
              (Some 7) (ChannelOptions.mk "general" "messaging" None)
              "alice" ex_empty) as (_ & H);
    [discriminate | discriminate | exact I |].
  destruct (H 7) as (rq & ims & _ & _ & Hr); [discriminate | reflexivity |].
  exists rq, ims. split; [reflexivity | exact Hr].
Defined.

(** * Further properties of the merge and of the operations *)

(** ** The merge *)

Lemma merged_client q c : Channel.client (merged q c) = Channel.client c.
Proof.
  unfold merged.
  by destruct (queryResponse.Channel q), (queryResponse.Members q),
    (queryResponse.Messages q), (queryResponse.Read q).
Qed.

Lemma merged_idempotent q c : merged q (merged q c) = merged q c.
Proof.
  unfold merged.
  by destruct (queryResponse.Channel q), (queryResponse.Members q),
    (queryResponse.Messages q), (queryResponse.Read q).
Qed.

(** X1: merging the same envelope a second time changes nothing: the world
    after two merges is the world after one. *)
Theorem updateChannel_idempotent q w l prev :
  chans w !! l = Some prev →
  (updateChannel q (Some l);; updateChannel q (Some l)) w
  = updateChannel q (Some l) w.
Proof.
  intros H. pose proof (lookup_lt_Some _ _ _ H) as Hl.
  rewrite (bind_run _ _ _ _ _ (updateChannel_run q w l prev H)).
  rewrite (updateChannel_run q w l prev H).
  rewrite (updateChannel_run q _ l (merged q prev)) by (by apply chans_stored).
  by rewrite with_chans_twice, merged_idempotent.
Qed.

Lemma updateChannel_idempotent_witness :
  (updateChannel ex_channel_and_members (Some 0);;
   updateChannel ex_channel_and_members (Some 0)) ex_world
  = updateChannel ex_channel_and_members (Some 0) ex_world.
Proof.
  apply (updateChannel_idempotent ex_channel_and_members ex_world 0 ex_prev).
  reflexivity.
Defined.

(** X2: the merge writes the handle's own cell and nothing else: every
    other channel cell, the maps and the call log are as before, and no
    cell is added. *)
Theorem updateChannel_writes_one_cell q w l prev :
  chans w !! l = Some prev →
  ∃ w',
    updateChannel q (Some l) w = Done tt w' ∧
    length (chans w') = length (chans w) ∧
    (∀ j, j ≠ l → chans w' !! j = chans w !! j) ∧
    imaps w' = imaps w ∧ smaps w' = smaps w ∧ calls w' = calls w.
Proof.
  intros H. eexists. split; first by apply updateChannel_run.
  simpl. split; first by rewrite length_insert.
  split; last done.
  intros j Hj. by apply list_lookup_insert_ne.
Qed.

Lemma updateChannel_writes_one_cell_witness :
  ∃ w',
    updateChannel ex_channel_and_members (Some 0) ex_world_maps = Done tt w' ∧
    length (chans w') = 1 ∧
    (∀ j, j ≠ 0 → chans w' !! j = chans ex_world_maps !! j) ∧
    imaps w' = [ex_ban_options; ex_members_data] ∧
    smaps w' = [ex_unban_options] ∧ calls w' = [].
Proof.
  apply (updateChannel_writes_one_cell ex_channel_and_members ex_world_maps
           0 ex_prev).
  reflexivity.
Defined.

(** X3: when the envelope has a channel object, each of Members, Messages
    and Read of the merged handle is the envelope's top-level list when
    that is non-nil, and otherwise the list of the channel object: the
    cached list is never kept, and a top-level list wins over the channel
    object's. *)
Theorem updateChannel_lists_with_channel_object w l prev q qc :
  chans w !! l = Some prev →
  queryResponse.Channel q = Some qc →
  ∃ w' c',
    updateChannel q (Some l) w = Done tt w' ∧
    chans w' !! l = Some c' ∧
    Channel.Members c' = match queryResponse.Members q with
                         | Some ms => Some ms
                         | None => Channel.Members qc
                         end ∧
    Channel.Messages c' = match queryResponse.Messages q with
                          | Some ms => Some ms
                          | None => Channel.Messages qc
                          end ∧
    Channel.Read c' = match queryResponse.Read q with
                      | Some rs => Some rs
                      | None => Channel.Read qc
                      end.
Proof.
  intros H Hq.
  eexists _, _. split; first by apply updateChannel_run.
  split; first by eapply chans_stored, lookup_lt_Some.
  unfold merged. rewrite Hq.
  by destruct (queryResponse.Members q), (queryResponse.Messages q),
    (queryResponse.Read q).
Qed.

Lemma updateChannel_lists_with_channel_object_witness :
  ∃ w' c',
    updateChannel ex_channel_and_members (Some 0) ex_world = Done tt w' ∧
    chans w' !! 0 = Some c' ∧
    Channel.Members c' = Some [Some (ex_member "bob")] ∧
    Channel.Messages c' = None ∧
    Channel.Read c' = None.
Proof.
  apply (updateChannel_lists_with_channel_object ex_world 0 ex_prev
           ex_channel_and_members ex_remote); reflexivity.
Defined.

(** ** Validation *)

(** X4: CreateChannel checks the type first, the ID second and the user
    ID last: an empty type gives "channel type is empty" whatever the ID
    and the user ID are, an empty ID under a non-empty type gives
    "channel ID is empty" whatever the user ID is, also when it is empty
    too, and an empty user ID gives "user ID is empty" only when type and
    ID are non-empty.  Each failed check returns a nil handle in the
    unchanged world.  Conversely a nil handle comes back only from a
    failed check: with an error, the world unchanged, and one of the three
    arguments empty. *)
Theorem CreateChannel_validation env client options userID w :
  (ChannelOptions.Type_ options = "" →
   CreateChannel env client options userID w
   = Done (None, errors_New "channel type is empty") w) ∧
  (ChannelOptions.Type_ options ≠ "" → ChannelOptions.ID options = "" →
   CreateChannel env client options userID w
   = Done (None, errors_New "channel ID is empty") w) ∧
  (ChannelOptions.Type_ options ≠ "" → ChannelOptions.ID options ≠ "" →
   userID = "" →
   CreateChannel env client options userID w
   = Done (None, errors_New "user ID is empty") w) ∧
  (∀ e w', CreateChannel env client options userID w = Done (None, e) w' →
           w' = w ∧ e ≠ None ∧
           (ChannelOptions.Type_ options = "" ∨
            ChannelOptions.ID options = "" ∨ userID = "")).
Proof.
  split; [|split; [|split]].
  - intros Ht. unfold CreateChannel. by rewrite decide_True.
  - intros Ht Hi. unfold CreateChannel.
    rewrite decide_False by done. by rewrite decide_True.
  - intros Ht Hi Hu. unfold CreateChannel.
    rewrite !decide_False by done. by rewrite decide_True.
  - intros e w'. unfold CreateChannel.
    destruct (decide (ChannelOptions.Type_ options = "")) as [Ht|Ht].
    { intros [= <- <-]. eauto. }
    destruct (decide (ChannelOptions.ID options = "")) as [Hi|Hi].
    { intros [= <- <-]. eauto. }
    destruct (decide (userID = "")) as [Hu|Hu].
    { intros [= <- <-]. eauto. }
    do 2 (erewrite bind_run; last done).
    unfold mbind, M_bind. by destruct (query _ _ _ _ _).
Qed.

Lemma CreateChannel_validation_witness :
  let env := ex_answering ex_existing_envelope in
  CreateChannel env (Some 7) (ChannelOptions.mk "" "" None) "" ex_world_maps
  = Done (None, Some "channel type is empty") ex_world_maps ∧
  CreateChannel env (Some 7) (ChannelOptions.mk "" "messaging" None) ""
    ex_world_maps
  = Done (None, Some "channel ID is empty") ex_world_maps ∧
  CreateChannel env (Some 7) (ChannelOptions.mk "general" "messaging" None) ""
    ex_world_maps
  = Done (None, Some "user ID is empty") ex_world_maps.
Proof.
  split; [|split].
  - apply (CreateChannel_validation (ex_answering ex_existing_envelope)
             (Some 7) (ChannelOptions.mk "" "" None) "" ex_world_maps).
    reflexivity.
  - destruct (CreateChannel_validation (ex_answering ex_existing_envelope)
                (Some 7) (ChannelOptions.mk "" "messaging" None) ""
                ex_world_maps) as (_ & H & _).
    apply H; first [discriminate | reflexivity].
  - destruct (CreateChannel_validation (ex_answering ex_existing_envelope)
                (Some 7) (ChannelOptions.mk "general" "messaging" None) ""
                ex_world_maps) as (_ & _ & H & _).
    apply H; first [discriminate | reflexivity].
Defined.

(** X5: BanUser, UnBanUser and MarkRead check their identifiers before
    they touch anything: with an empty target (for BanUser, checked before
    the acting user) or an empty user they return their error in the
    unchanged world, so that no call is made and the caller's options map
    is not written.  This holds for every handle, nil included. *)
Theorem moderation_validation_fails_closed env ch options soptions
    targetID userID w :
  BanUser env ch "" userID options w
  = Done (errors_New "target ID is empty") w ∧
  (targetID ≠ "" →
   BanUser env ch targetID "" options w
   = Done (errors_New "user ID is empty") w) ∧
  UnBanUser env ch "" soptions w
  = Done (errors_New "target ID must be not empty") w ∧
  MarkRead env ch "" options w
  = Done (errors_New "user ID must be not empty") w.
Proof.
  repeat split. intros Ht. unfold BanUser. by rewrite decide_False.
Qed.

Lemma moderation_validation_fails_closed_witness :
  BanUser ex_failing (Some 0) "bob" "" (Some 0) ex_world_maps
  = Done (Some "user ID is empty") ex_world_maps.
Proof.
  apply (moderation_validation_fails_closed ex_failing (Some 0) (Some 0)
           None "bob" "" ex_world_maps).
  discriminate.
Defined.

(** ** What query sends *)

Lemma query_heap_lookups w options data uid :
  live_map w data →
  let n := length (imaps w) in
  let dref := match data with Some d => d | None => S n end in
  let kref := match data with Some _ => S n | None => S (S n) end in
  query_heap w options data uid !! n
  = Some (<["data" := VMap (Some dref)]>
            (map_of w options ∪ {[ "state" := VBool true ]})) ∧
  query_heap w options data uid !! dref
  = Some (<["created_by" := VMap (Some kref)]> (map_of w data)) ∧
  query_heap w options data uid !! kref = Some {[ "id" := VString uid ]}.
Proof.
  intros Hd. destruct data as [d|]; simpl.
  - destruct Hd as [dm Hdm]. rewrite Hdm. simpl.
    pose proof (lookup_lt_Some _ _ _ Hdm) as Hlt.
    split; [|split].
    + apply lookup_tail0. by rewrite length_insert.
    + rewrite lookup_app_l by (by rewrite length_insert).
      by apply list_lookup_insert_eq.
    + apply lookup_tail1. by rewrite length_insert.
  - split; [|split].
    + by apply lookup_tail0.
    + rewrite insert_empty. by apply lookup_tail1.
    + rewrite (cons_middle _ (imaps w)), app_assoc.
      apply lookup_tail1. by rewrite length_snoc.
Qed.

Lemma query_heap_frame w options data uid j m :
  Some j ≠ data →
  imaps w !! j = Some m →
  query_heap w options data uid !! j = Some m.
Proof.
  intros Hj Hm. destruct data as [d|]; simpl.
  - apply lookup_app_l_Some. rewrite list_lookup_insert_ne; first done.
    congruence.
  - by apply lookup_app_l_Some.
Qed.

Lemma query_payload_lookups (opts : gmap string value) dref :
  let pm := <["data" := VMap (Some dref)]> (opts ∪ {[ "state" := VBool true ]}) in
  pm !! "data" = Some (VMap (Some dref)) ∧
  pm !! "state" = Some (default (VBool true) (opts !! "state")) ∧
  (∀ k, k ≠ "data" → k ≠ "state" → pm !! k = opts !! k).
Proof.
  simpl. split; [|split].
  - by rewrite lookup_insert_eq.
  - rewrite lookup_insert_ne by done. rewrite lookup_union.
    rewrite lookup_singleton_eq. by destruct (opts !! "state").
  - intros k Hd Hs. rewrite lookup_insert_ne by done.
    apply lookup_union_l. by apply lookup_singleton_ne.
Qed.

(** X6: query posts to channels/<type>/<id>/query a body map that holds
    the caller's options, "state" (true unless the options set it) and,
    over any "data" option, a reference to the data map; the data map is
    the caller's when one was given, else a new one, and holds created_by,
    an object with the creator's id.  This is so whether the transport
    answers or fails. *)
Theorem query_request_body env w l c u cl options data :
  chans w !! l = Some c →
  Channel.CreatedBy c = Some u →
  Channel.client c = Some cl →
  live_map w options → live_map w data →
  ∃ e w' body dref kref pm,
    query env (Some l) options data w = Done e w' ∧
    calls w' = calls w ++ [ {| req_method := POST;
                               req_path := channel_path env c ["query"];
                               req_params := None;
                               req_data := VMap (Some body) |} ] ∧
    imaps w' !! body = Some pm ∧
    pm !! "data" = Some (VMap (Some dref)) ∧
    pm !! "state" = Some (default (VBool true) (map_of w options !! "state")) ∧
    (∀ k, k ≠ "data" → k ≠ "state" → pm !! k = map_of w options !! k) ∧
    (∀ d, data = Some d → dref = d) ∧
    imaps w' !! dref
    = Some (<["created_by" := VMap (Some kref)]> (map_of w data)) ∧
    imaps w' !! kref = Some {[ "id" := VString (User.ID u) ]}.
Proof.
  intros Hc Hu Hcl Ho Hd.
  pose proof (query_run env w l c u cl options data Hc Hu Hcl Ho Hd) as Hrun.
  destruct (query_heap_lookups w options data (User.ID u) Hd)
    as (Hbody & Hdref & Hkref).
  destruct (query_payload_lookups (map_of w options)
              (match data with Some d => d | None => S (length (imaps w)) end))
    as (Hpd & Hps & Hpk).
  simpl in Hrun.
  assert (∀ e w',
    query env (Some l) options data w = Done e w' →
    calls w' = calls w ++ [query_request env c w] →
    imaps w' = query_heap w options data (User.ID u) →
    ∃ e w' body dref kref pm,
      query env (Some l) options data w = Done e w' ∧
      calls w' = calls w ++ [ {| req_method := POST;
                                 req_path := channel_path env c ["query"];
                                 req_params := None;
                                 req_data := VMap (Some body) |} ] ∧
      imaps w' !! body = Some pm ∧
      pm !! "data" = Some (VMap (Some dref)) ∧
      pm !! "state" = Some (default (VBool true) (map_of w options !! "state")) ∧
      (∀ k, k ≠ "data" → k ≠ "state" → pm !! k = map_of w options !! k) ∧
      (∀ d, data = Some d → dref = d) ∧
      imaps w' !! dref
      = Some (<["created_by" := VMap (Some kref)]> (map_of w data)) ∧
      imaps w' !! kref = Some {[ "id" := VString (User.ID u) ]}) as Hcase.
  { intros e w' Hq Hca Him.
    eexists e, w', (length (imaps w)), _, _, _.
    split; first done. split; first done.
    rewrite Him. split; first apply Hbody.
    split; first done. split; first done. split; first done.
    split; last done.
    by intros d ->. }
  destruct (roundTrip _ _ _ _ _) as [err|resp]; by eapply Hcase.
Qed.

Lemma query_request_body_witness :
  let env := ex_answering ex_members_only in
  ∃ e w' body dref kref pm,
    query env (Some 0) (Some 0) (Some 1) ex_world_maps = Done e w' ∧
    calls w' = [ {| req_method := POST;
                    req_path := channel_path env ex_prev ["query"];
                    req_params := None;
                    req_data := VMap (Some body) |} ] ∧
    imaps w' !! body = Some pm ∧
    pm !! "data" = Some (VMap (Some dref)) ∧
    pm !! "state" = Some (default (VBool true) (ex_ban_options !! "state")) ∧
    (∀ k, k ≠ "data" → k ≠ "state" → pm !! k = ex_ban_options !! k) ∧
    (∀ d, Some 1 = Some d → dref = d) ∧
    imaps w' !! dref
    = Some (<["created_by" := VMap (Some kref)]> ex_members_data) ∧
    imaps w' !! kref = Some {[ "id" := VString "alice" ]}.
Proof.
  apply (query_request_body (ex_answering ex_members_only) ex_world_maps 0
           ex_prev (ex_user "alice") 7 (Some 0) (Some 1));
    first [reflexivity | by eexists].
Defined.

(** ** What CreateChannel sends *)

Lemma refresh_options_state :
  refresh_options ∪ {[ "state" := VBool true ]} = refresh_options.
Proof. vm_compute. reflexivity. Qed.

Lemma CreateChannel_run_exact env cl options userID w :
  ChannelOptions.Type_ options ≠ "" →
  ChannelOptions.ID options ≠ "" →
  userID ≠ "" →
  live_map w (ChannelOptions.Data options) →
  let l := length (chans w) in
  let c := new_channel (Some cl) options userID in
  let w0 := with_imaps (imaps w ++ [refresh_options])
              (with_chans (chans w ++ [c]) w) in
  let ims := query_heap w0 (Some (length (imaps w)))
               (ChannelOptions.Data options) userID in
  let rq := query_request env c w0 in
  let w1 := with_calls (calls w ++ [rq]) (with_imaps ims w0) in
  live_map w0 (ChannelOptions.Data options) ∧
  map_of w0 (ChannelOptions.Data options) = map_of w (ChannelOptions.Data options) ∧
  map_of w0 (Some (length (imaps w))) = refresh_options ∧
  CreateChannel env (Some cl) options userID w
  = match roundTrip env cl (calls w) ims rq with
    | Failed err => Done (Some l, Some err) w1
    | Replied resp =>
        Done (Some l, None) (with_chans (chans w ++ [merged resp c]) w1)
    end.
Proof.
  intros Ht Hi Hu Hd l c w0 ims rq w1.
  assert (live_map w0 (ChannelOptions.Data options) ∧
          map_of w0 (ChannelOptions.Data options)
          = map_of w (ChannelOptions.Data options)) as [Hd0 Hdm].
  { destruct (ChannelOptions.Data options) as [d|]; last done.
    destruct Hd as [dm Hdm]. simpl.
    rewrite (lookup_app_l_Some _ _ _ _ Hdm), Hdm. eauto. }
  assert (imaps w0 !! length (imaps w) = Some refresh_options) as Hn
    by (simpl; by apply lookup_tail0).
  assert (live_map w0 (Some (length (imaps w)))) as Ho0 by (by eexists).
  assert (chans w0 !! l = Some c) as Hc0 by (simpl; by apply lookup_tail0).
  split; first done. split; first done.
  split; first (simpl in *; by rewrite Hn).
  pose proof (query_run env w0 l c (User.mk userID "" "") cl
                (Some (length (imaps w))) (ChannelOptions.Data options)
                Hc0 eq_refl eq_refl Ho0 Hd0) as Hrun.
  simpl in Hrun.
  unfold CreateChannel. rewrite !decide_False by done.
  do 2 (erewrite bind_run; last done).
  transitivity
    (match query env (Some l) (Some (length (imaps w)))
             (ChannelOptions.Data options) w0 with
     | Done err w' => Done (Some l, err) w'
     | Panic msg => Panic msg
     end); first reflexivity.
  rewrite Hrun. subst ims rq w1.
  destruct (roundTrip _ _ _ _ _); simpl; first reflexivity.
  unfold with_chans. simpl. by rewrite insert_tail0.
Qed.

(** X7: CreateChannel posts to channels/<type>/<id>/query a body map with
    watch false, state true, presence false and data, a reference to the
    extra-data map: the caller's own map when one was given.  That map
    receives created_by, an object with the user ID, so the caller's extra
    data is written in place, also when the transport fails. *)
Theorem CreateChannel_request_body env cl options userID w :
  ChannelOptions.Type_ options ≠ "" →
  ChannelOptions.ID options ≠ "" →
  userID ≠ "" →
  live_map w (ChannelOptions.Data options) →
  ∃ r w' body dref kref,
    CreateChannel env (Some cl) options userID w = Done r w' ∧
    calls w' = calls w ++ [ {| req_method := POST;
                               req_path :=
                                 path_Join env
                                   ["channels";
                                    PathEscape env (ChannelOptions.Type_ options);
                                    PathEscape env (ChannelOptions.ID options);
                                    "query"];
                               req_params := None;
                               req_data := VMap (Some body) |} ] ∧
    imaps w' !! body
    = Some (<["data" := VMap (Some dref)]>
              {[ "watch" := VBool false; "state" := VBool true;
                 "presence" := VBool false ]}) ∧
    (∀ d, ChannelOptions.Data options = Some d → dref = d) ∧
    imaps w' !! dref
    = Some (<["created_by" := VMap (Some kref)]>
              (map_of w (ChannelOptions.Data options))) ∧
    imaps w' !! kref = Some {[ "id" := VString userID ]}.
Proof.
  intros Ht Hi Hu Hd.
  destruct (CreateChannel_run_exact env cl options userID w Ht Hi Hu Hd)
    as (Hd0 & Hdm & Hom & Hrun).
  set (c := new_channel (Some cl) options userID) in *.
  set (w0 := with_imaps (imaps w ++ [refresh_options])
               (with_chans (chans w ++ [c]) w)) in *.
  destruct (query_heap_lookups w0 (Some (length (imaps w)))
              (ChannelOptions.Data options) userID Hd0)
    as (Hbody & Hdref & Hkref).
  rewrite Hom, refresh_options_state in Hbody. rewrite Hdm in Hdref.
  assert (∀ r w',
    CreateChannel env (Some cl) options userID w = Done r w' →
    calls w' = calls w ++ [query_request env c w0] →
    imaps w' = query_heap w0 (Some (length (imaps w)))
                 (ChannelOptions.Data options) userID →
    ∃ r w' body dref kref,
      CreateChannel env (Some cl) options userID w = Done r w' ∧
      calls w' = calls w ++ [ {| req_method := POST;
                                 req_path :=
                                   path_Join env
                                     ["channels";
                                      PathEscape env (ChannelOptions.Type_ options);
                                      PathEscape env (ChannelOptions.ID options);
                                      "query"];
                                 req_params := None;
                                 req_data := VMap (Some body) |} ] ∧
      imaps w' !! body
      = Some (<["data" := VMap (Some dref)]>
                {[ "watch" := VBool false; "state" := VBool true;
                   "presence" := VBool false ]}) ∧
      (∀ d, ChannelOptions.Data options = Some d → dref = d) ∧
      imaps w' !! dref
      = Some (<["created_by" := VMap (Some kref)]>
                (map_of w (ChannelOptions.Data options))) ∧
      imaps w' !! kref = Some {[ "id" := VString userID ]}) as Hcase.
  { intros r w' Hq Hca Him.
    eexists r, w', (length (imaps w0)), _, _.
    split; first done. split; first done.
    rewrite Him. split; first apply Hbody.
    split; last done.
    by intros d ->. }
  destruct (roundTrip _ _ _ _ _) as [err|resp]; by eapply Hcase.
Qed.

Lemma CreateChannel_request_body_witness :
  let env := ex_failing in
  let options := ChannelOptions.mk "general" "messaging" (Some 1) in
  ∃ r w' body dref kref,
    CreateChannel env (Some 7) options "alice" ex_world_maps = Done r w' ∧
    calls w' = [ {| req_method := POST;
                    req_path := path_Join env
                                  ["channels"; PathEscape env "messaging";
                                   PathEscape env "general"; "query"];
                    req_params := None;
                    req_data := VMap (Some body) |} ] ∧
    imaps w' !! body
    = Some (<["data" := VMap (Some dref)]>
              {[ "watch" := VBool false; "state" := VBool true;
                 "presence" := VBool false ]}) ∧
    (∀ d, Some 1 = Some d → dref = d) ∧
    imaps w' !! dref
    = Some (<["created_by" := VMap (Some kref)]> ex_members_data) ∧
    imaps w' !! kref = Some {[ "id" := VString "alice" ]}.
Proof.
  apply (CreateChannel_request_body ex_failing 7
           (ChannelOptions.mk "general" "messaging" (Some 1)) "alice"
           ex_world_maps);
    first [discriminate | by eexists].
Defined.

(** ** Exact runs of the remaining operations *)

Section MoreRuns.

Variable env : Env.

Lemma Update_run w l c cl options message :
  chans w !! l = Some c →
  Channel.client c = Some cl →
  let w1 := with_imaps
              (imaps w ++ [ {[ "data" := VMap options;
                               "message" := VString message ]} ]) w in
  let rq := {| req_method := POST; req_path := channel_path env c [];
               req_params := None;
               req_data := VMap (Some (length (imaps w))) |} in
  Update env (Some l) options message w
  = Done (reply_err (roundTrip env cl (calls w) (imaps w1) rq))
         (with_calls (calls w ++ [rq]) w1).
Proof. intros Hc Hcl. by apply post_payload_run. Qed.

Lemma membership_run key (op : M error) w l c cl userIDs :
  chans w !! l = Some c →
  Channel.client c = Some cl →
  op = (data ← make_map {[ key := VStrings userIDs ]};
        c ← load (Some l);
        let p := channel_path env c [] in
        r ← Post env (Channel.client c) p None (VMap data);
        mret (reply_err r)) →
  let w1 := with_imaps (imaps w ++ [ {[ key := VStrings userIDs ]} ]) w in
  let rq := {| req_method := POST; req_path := channel_path env c [];
               req_params := None;
               req_data := VMap (Some (length (imaps w))) |} in
  op w = Done (reply_err (roundTrip env cl (calls w) (imaps w1) rq))
              (with_calls (calls w ++ [rq]) w1).
Proof. intros Hc Hcl ->. by apply post_payload_run. Qed.

Lemma AddMembers_run w l c cl userIDs :
  chans w !! l = Some c →
  Channel.client c = Some cl →
  userIDs ≠ [] →
  let w1 := with_imaps (imaps w ++ [ {[ "add_members" := VStrings userIDs ]} ]) w in
  let rq := {| req_method := POST; req_path := channel_path env c [];
               req_params := None;
               req_data := VMap (Some (length (imaps w))) |} in
  AddMembers env (Some l) userIDs w
  = Done (reply_err (roundTrip env cl (calls w) (imaps w1) rq))
         (with_calls (calls w ++ [rq]) w1).
Proof.
  intros Hc Hcl Hu. eapply membership_run; [done..|].
  unfold AddMembers. rewrite decide_False; first done. by destruct userIDs.
Qed.

Lemma AddModerators_run w l c cl userIDs :
  chans w !! l = Some c →
  Channel.client c = Some cl →
  userIDs ≠ [] →
  let w1 := with_imaps (imaps w ++ [ {[ "add_moderators" := VStrings userIDs ]} ]) w in
  let rq := {| req_method := POST; req_path := channel_path env c [];
               req_params := None;
               req_data := VMap (Some (length (imaps w))) |} in
  AddModerators env (Some l) userIDs w
  = Done (reply_err (roundTrip env cl (calls w) (imaps w1) rq))
         (with_calls (calls w ++ [rq]) w1).
Proof.
  intros Hc Hcl Hu. eapply membership_run; [done..|].
  unfold AddModerators. rewrite decide_False; first done. by destruct userIDs.
Qed.

Lemma DemoteModerators_run w l c cl userIDs :
  chans w !! l = Some c →
  Channel.client c = Some cl →
  userIDs ≠ [] →
  let w1 := with_imaps (imaps w ++ [ {[ "demote_moderators" := VStrings userIDs ]} ]) w in
  let rq := {| req_method := POST; req_path := channel_path env c [];
               req_params := None;
               req_data := VMap (Some (length (imaps w))) |} in
  DemoteModerators env (Some l) userIDs w
  = Done (reply_err (roundTrip env cl (calls w) (imaps w1) rq))
         (with_calls (calls w ++ [rq]) w1).
Proof.
  intros Hc Hcl Hu. eapply membership_run; [done..|].
  unfold DemoteModerators. rewrite decide_False; first done.
  by destruct userIDs.
Qed.

Lemma RemoveMembers_run w l c cl userIDs :
  chans w !! l = Some c →
  Channel.client c = Some cl →
  userIDs ≠ [] →
  let w1 := with_imaps (imaps w ++ [ {[ "remove_members" := VStrings userIDs ]} ]) w in
  let rq := {| req_method := POST; req_path := channel_path env c [];
               req_params := None;
               req_data := VMap (Some (length (imaps w))) |} in
  RemoveMembers env (Some l) userIDs w
  = match roundTrip env cl (calls w) (imaps w1) rq with
    | Failed err => Done (Some err) (with_calls (calls w ++ [rq]) w1)
    | Replied resp =>
        Done None (with_chans (<[l := merged resp c]> (chans w))
                     (with_calls (calls w ++ [rq]) w1))
    end.
Proof.
  intros Hc Hcl Hu.
  unfold RemoveMembers. rewrite decide_False by (by destruct userIDs).
  do 2 step. rewrite Hcl.
  erewrite bind_run; last apply Post_run. simpl.
  destruct (roundTrip _ _ _ _ _) as [err|resp]; first reflexivity.
  erewrite bind_run; last by apply updateChannel_run.
  reflexivity.
Qed.

Lemma Truncate_run w l c cl :
  chans w !! l = Some c →
  Channel.client c = Some cl →
  let rq := {| req_method := POST; req_path := channel_path env c ["truncate"];
               req_params := None; req_data := VNil |} in
  Truncate env (Some l) w
  = Done (reply_err (roundTrip env cl (calls w) (imaps w) rq))
         (with_calls (calls w ++ [rq]) w).
Proof.
  intros Hc Hcl. unfold Truncate. step. rewrite Hcl.
  erewrite bind_run; last apply Post_run. reflexivity.
Qed.

Lemma Channel_Delete_run w l c cl :
  chans w !! l = Some c →
  Channel.client c = Some cl →
  let rq := {| req_method := DELETE; req_path := channel_path env c [];
               req_params := None; req_data := VNil |} in
  Channel_Delete env (Some l) w
  = Done (reply_err (roundTrip env cl (calls w) (imaps w) rq))
         (with_calls (calls w ++ [rq]) w).
Proof.
  intros Hc Hcl. unfold Channel_Delete. step. rewrite Hcl.
  erewrite bind_run; last apply Delete_run. reflexivity.
Qed.

(** The map an operation writes its entries into, for a [nil] options
    argument and for a map of the store alike: the reference [r], in the
    world [w0] the operation continues in. *)
Lemma resolve_options w options :
  live_map w options →
  ∃ w0 r,
    ((options = None ∧ r = length (imaps w) ∧
      w0 = with_imaps (imaps w ++ [∅]) w) ∨
     (options = Some r ∧ w0 = w)) ∧
    imaps w0 !! r = Some (map_of w options) ∧
    chans w0 = chans w ∧ calls w0 = calls w ∧ smaps w0 = smaps w ∧
    (∀ j m, imaps w !! j = Some m → imaps w0 !! j = Some m) ∧
    (∀ j m, Some j ≠ options → imaps w !! j = Some m → j ≠ r).
Proof.
  intros [->|(o & m & -> & Hm)]%live_map_inv.
  - exists (with_imaps (imaps w ++ [∅]) w), (length (imaps w)).
    split; first by left. simpl.
    split; first by apply lookup_tail0.
    do 3 (split; first done). split.
    + intros j m Hj. by apply lookup_app_l_Some.
    + intros j m _ Hj ->. apply lookup_lt_Some in Hj. lia.
  - exists w, o. split; first by right. simpl. rewrite Hm.
    do 4 (split; first done). split; first done.
    intros j m' Hne _ ->. done.
Qed.

Lemma resolve_soptions w soptions :
  live_smap w soptions →
  ∃ w0 r,
    ((soptions = None ∧ r = length (smaps w) ∧
      w0 = with_smaps (smaps w ++ [∅]) w) ∨
     (soptions = Some r ∧ w0 = w)) ∧
    smaps w0 !! r = Some (smap_of w soptions) ∧
    chans w0 = chans w ∧ calls w0 = calls w ∧ imaps w0 = imaps w ∧
    (∀ j m, smaps w !! j = Some m → smaps w0 !! j = Some m) ∧
    (∀ j m, Some j ≠ soptions → smaps w !! j = Some m → j ≠ r).
Proof.
  intros [->|(o & m & -> & Hm)]%live_smap_inv.
  - exists (with_smaps (smaps w ++ [∅]) w), (length (smaps w)).
    split; first by left. simpl.
    split; first by apply lookup_tail0.
    do 3 (split; first done). split.
    + intros j m Hj. by apply lookup_app_l_Some.
    + intros j m _ Hj ->. apply lookup_lt_Some in Hj. lia.
  - exists w, o. split; first by right. simpl. rewrite Hm.
    do 4 (split; first done). split; first done.
    intros j m' Hne _ ->. done.
Qed.

Lemma BanUser_resolved ch targetID userID options w w0 r :
  targetID ≠ "" → userID ≠ "" →
  (options = None ∧ r = length (imaps w) ∧
   w0 = with_imaps (imaps w ++ [∅]) w) ∨
  (options = Some r ∧ w0 = w) →
  BanUser env ch targetID userID options w
  = BanUser env ch targetID userID (Some r) w0.
Proof.
  intros Ht Hu [(-> & -> & ->)|(-> & ->)]; last done.
  by apply BanUser_nil_options.
Qed.

Lemma MarkRead_resolved ch userID options w w0 r :
  userID ≠ "" →
  (options = None ∧ r = length (imaps w) ∧
   w0 = with_imaps (imaps w ++ [∅]) w) ∨
  (options = Some r ∧ w0 = w) →
  MarkRead env ch userID options w = MarkRead env ch userID (Some r) w0.
Proof.
  intros Hu [(-> & -> & ->)|(-> & ->)]; last done.
  by apply MarkRead_nil_options.
Qed.

Lemma UnBanUser_resolved ch targetID soptions w w0 r :
  targetID ≠ "" →
  (soptions = None ∧ r = length (smaps w) ∧
   w0 = with_smaps (smaps w ++ [∅]) w) ∨
  (soptions = Some r ∧ w0 = w) →
  UnBanUser env ch targetID soptions w
  = UnBanUser env ch targetID (Some r) w0.
Proof.
  intros Ht [(-> & -> & ->)|(-> & ->)]; last done.
  by apply UnBanUser_nil_options.
Qed.

End MoreRuns.

(** ** What the operations leave alone *)

(** X8: an operation writes at most the one map it was handed.  query
    leaves every map of the store but its data argument as it was (its
    options are only read); BanUser and MarkRead leave every map but their
    options; UnBanUser every string map but its options; and Update,
    Delete, Truncate and the four membership operations leave every map as
    it was.  With a nil argument no map of the store is written at all. *)
Theorem operations_write_only_their_map env w l c u cl options data soptions
    message userIDs targetID userID :
  chans w !! l = Some c →
  Channel.client c = Some cl →
  Channel.CreatedBy c = Some u →
  userIDs ≠ [] → targetID ≠ "" → userID ≠ "" →
  live_map w options → live_map w data → live_smap w soptions →
  keeps_maps (query env (Some l) options data) w data None ∧
  keeps_maps (BanUser env (Some l) targetID userID options) w options None ∧
  keeps_maps (MarkRead env (Some l) userID options) w options None ∧
  keeps_maps (UnBanUser env (Some l) targetID soptions) w None soptions ∧
  keeps_maps (Update env (Some l) options message) w None None ∧
  keeps_maps (Channel_Delete env (Some l)) w None None ∧
  keeps_maps (Truncate env (Some l)) w None None ∧
  keeps_maps (AddMembers env (Some l) userIDs) w None None ∧
  keeps_maps (RemoveMembers env (Some l) userIDs) w None None ∧
  keeps_maps (AddModerators env (Some l) userIDs) w None None ∧
  keeps_maps (DemoteModerators env (Some l) userIDs) w None None.
Proof.
  intros Hc Hcl Hu Hids Ht Hus Ho Hd Hso.
  split.
  { pose proof (query_run env w l c u cl options data Hc Hu Hcl Ho Hd) as Hrun.
    simpl in Hrun.
    destruct (roundTrip _ _ _ _ _); eexists _, _;
      (split; first apply Hrun); (split; last done);
      intros j m Hj Hm; by apply query_heap_frame. }
  split.
  { destruct (resolve_options w options Ho)
      as (w0 & r & Hres & Hr & Hch & Hca & Hsm & Hext & Hne).
    rewrite <- Hch in Hc. eexists _, _. split.
    - rewrite (BanUser_resolved env _ _ _ _ w w0 r Ht Hus Hres).
      by eapply BanUser_run.
    - simpl. split; last by rewrite Hsm.
      intros j m Hj Hm. rewrite list_lookup_insert_ne; first by apply Hext.
      intros ->. by eapply Hne. }
  split.
  { destruct (resolve_options w options Ho)
      as (w0 & r & Hres & Hr & Hch & Hca & Hsm & Hext & Hne).
    rewrite <- Hch in Hc. eexists _, _. split.
    - rewrite (MarkRead_resolved env _ _ _ w w0 r Hus Hres).
      by eapply MarkRead_run.
    - simpl. split; last by rewrite Hsm.
      intros j m Hj Hm. apply lookup_app_l_Some.
      rewrite list_lookup_insert_ne; first by apply Hext.
      intros ->. by eapply Hne. }
  split.
  { destruct (resolve_soptions w soptions Hso)
      as (w0 & r & Hres & Hr & Hch & Hca & Him & Hext & Hne).
    rewrite <- Hch in Hc. eexists _, _. split.
    - rewrite (UnBanUser_resolved env _ _ _ w w0 r Ht Hres).
      by eapply UnBanUser_run.
    - simpl. split; first (intros j m _ Hm; by rewrite Him).
      intros j m Hj Hm. rewrite list_lookup_insert_ne; first by apply Hext.
      intros ->. by eapply Hne. }
  split.
  { eexists _, _. split; first by eapply Update_run.
    simpl. split; last done. intros j m _ Hm. by apply lookup_app_l_Some. }
  split.
  { eexists _, _. split; first by eapply Channel_Delete_run. done. }
  split.
  { eexists _, _. split; first by eapply Truncate_run. done. }
  split.
  { eexists _, _. split; first by eapply AddMembers_run.
    simpl. split; last done. intros j m _ Hm. by apply lookup_app_l_Some. }
  split.
  { pose proof (RemoveMembers_run env w l c cl userIDs Hc Hcl Hids) as Hrun.
    simpl in Hrun.
    destruct (roundTrip _ _ _ _ _); eexists _, _;
      (split; first apply Hrun); (split; last done);
      intros j m _ Hm; by apply lookup_app_l_Some. }
  split.
  { eexists _, _. split; first by eapply AddModerators_run.
    simpl. split; last done. intros j m _ Hm. by apply lookup_app_l_Some. }
  eexists _, _. split; first by eapply DemoteModerators_run.
  simpl. split; last done. intros j m _ Hm. by apply lookup_app_l_Some.
Qed.

Lemma operations_write_only_their_map_witness :
  let env := ex_answering ex_members_only in
  let w := ex_world_maps in
  keeps_maps (query env (Some 0) (Some 0) (Some 1)) w (Some 1) None ∧
  keeps_maps (BanUser env (Some 0) "bob" "alice" (Some 0)) w (Some 0) None ∧
  keeps_maps (MarkRead env (Some 0) "alice" (Some 0)) w (Some 0) None ∧
  keeps_maps (UnBanUser env (Some 0) "bob" None) w None None ∧
  keeps_maps (Update env (Some 0) (Some 0) "color is blue") w None None ∧
  keeps_maps (Channel_Delete env (Some 0)) w None None ∧
  keeps_maps (Truncate env (Some 0)) w None None ∧
  keeps_maps (AddMembers env (Some 0) ["bob"]) w None None ∧
  keeps_maps (RemoveMembers env (Some 0) ["bob"]) w None None ∧
  keeps_maps (AddModerators env (Some 0) ["bob"]) w None None ∧
  keeps_maps (DemoteModerators env (Some 0) ["bob"]) w None None.
Proof.
  apply (operations_write_only_their_map (ex_answering ex_members_only)
           ex_world_maps 0 ex_prev (ex_user "alice") 7 (Some 0) (Some 1) None
           "color is blue" ["bob"] "bob" "alice");
    first [reflexivity | discriminate | by eexists | exact I].
Defined.

(** ** The handle across operations *)

Lemma sends_then_merges_keeps_client env op cl l c w :
  chans w !! l = Some c →
  sends_then_merges env op cl l c w →
  ∃ e w' c',
    op w = Done e w' ∧
    chans w' !! l = Some c' ∧
    Channel.client c' = Channel.client c ∧
    length (chans w') = length (chans w) ∧
    ∀ j, j ≠ l → chans w' !! j = chans w !! j.
Proof.
  intros Hc (rq & w1 & Hop & Hch & _). rewrite Hop.
  destruct (roundTrip _ _ _ _ _) as [err|resp].
  - exists (Some err), (with_calls (calls w ++ [rq]) w1), c.
    simpl. rewrite Hch. by repeat split.
  - eexists None, _, (merged resp c). split; first done. simpl.
    split; first by eapply list_lookup_insert_eq, lookup_lt_Some.
    split; first by apply merged_client.
    split; first by rewrite length_insert.
    intros j Hj. by apply list_lookup_insert_ne.
Qed.

(** X9: the operations that merge (query, refresh, RemoveMembers) keep
    the handle usable whatever the transport answers: on return the
    handle's cell is still there with the client it had, no cell was added
    or removed, and every other handle's cell is as it was. *)
Theorem merging_operations_keep_client env w l c u cl options data userIDs :
  chans w !! l = Some c →
  Channel.client c = Some cl →
  Channel.CreatedBy c = Some u →
  userIDs ≠ [] →
  live_map w options → live_map w data →
  let keeps (op : M error) :=
    ∃ e w' c',
      op w = Done e w' ∧
      chans w' !! l = Some c' ∧
      Channel.client c' = Channel.client c ∧
      length (chans w') = length (chans w) ∧
      ∀ j, j ≠ l → chans w' !! j = chans w !! j in
  keeps (query env (Some l) options data) ∧
  keeps (refresh env (Some l)) ∧
  keeps (RemoveMembers env (Some l) userIDs).
Proof.
  intros Hc Hcl Hu Hids Ho Hd keeps. subst keeps. simpl.
  split; [|split]; (eapply sends_then_merges_keeps_client; first done).
  - by eapply query_sends_then_merges.
  - by eapply refresh_sends_then_merges.
  - by eapply RemoveMembers_sends_then_merges.
Qed.

Lemma merging_operations_keep_client_witness :
  let env := ex_answering ex_channel_and_members in
  let w := ex_world_maps in
  let keeps (op : M error) :=
    ∃ e w' c',
      op w = Done e w' ∧
      chans w' !! 0 = Some c' ∧
      Channel.client c' = Some 7 ∧
      length (chans w') = 1 ∧
      ∀ j, j ≠ 0 → chans w' !! j = chans w !! j in
  keeps (query env (Some 0) None (Some 1)) ∧
  keeps (refresh env (Some 0)) ∧
  keeps (RemoveMembers env (Some 0) ["bob"]).
Proof.
  apply (merging_operations_keep_client
           (ex_answering ex_channel_and_members) ex_world_maps 0 ex_prev
           (ex_user "alice") 7 None (Some 1) ["bob"]);
    first [reflexivity | discriminate | by eexists | exact I].
Defined.

(** X10: BanUser followed by UnBanUser on the same handle makes two calls,
    the POST and then the DELETE to moderation/ban, and leaves every
    channel cell as it was; the second call finds the handle as the first
    one left it. *)
Theorem ban_then_unban env w l c cl targetID userID options soptions :
  chans w !! l = Some c →
  Channel.client c = Some cl →
  targetID ≠ "" → userID ≠ "" →
  live_map w options → live_smap w soptions →
  ∃ e1 w1 e2 w2 body params,
    BanUser env (Some l) targetID userID options w = Done e1 w1 ∧
    UnBanUser env (Some l) targetID soptions w1 = Done e2 w2 ∧
    calls w2 = calls w ++ [ {| req_method := POST;
                               req_path := "moderation/ban";
                               req_params := None;
                               req_data := VMap (Some body) |};
                            {| req_method := DELETE;
                               req_path := "moderation/ban";
                               req_params := Some params;
                               req_data := VNil |} ] ∧
    chans w2 = chans w.
Proof.
  intros Hc Hcl Ht Hu Ho Hso.
  destruct (resolve_options w options Ho)
    as (w0 & r & Hres & Hr & Hch & Hca & Hsm & _ & _).
  assert (chans w0 !! l = Some c) as Hc0 by (by rewrite Hch).
  pose proof (BanUser_run env w0 l c cl r _ targetID userID
                Hc0 Hcl Hr Ht Hu) as Hban.
  simpl in Hban.
  rewrite <- (BanUser_resolved env _ _ _ _ w w0 r Ht Hu Hres) in Hban.
  match type of Hban with _ = Done ?e ?x =>
    set (e1 := e) in *; set (w1 := x) in * end.
  assert (live_smap w1 soptions) as Hso1.
  { destruct soptions as [so|]; last done. simpl. by rewrite Hsm. }
  destruct (resolve_soptions w1 soptions Hso1)
    as (w0' & r' & Hres' & Hr' & Hch' & Hca' & _ & _ & _).
  assert (chans w0' !! l = Some c) as Hc0' by (by rewrite Hch').
  pose proof (UnBanUser_run env w0' l c cl r' _ targetID
                Hc0' Hcl Hr' Ht) as Hunban.
  simpl in Hunban.
  rewrite <- (UnBanUser_resolved env _ _ _ w1 w0' r' Ht Hres') in Hunban.
  eexists e1, w1, _, _, r, _.
  split; first done. split; first exact Hunban.
  simpl. rewrite Hca', Hch'. simpl. rewrite Hca, Hch.
  by rewrite snoc_snoc.
Qed.

Lemma ban_then_unban_witness :
  let env := ex_answering ex_members_only in
  ∃ e1 w1 e2 w2 body params,
    BanUser env (Some 0) "bob" "alice" None ex_world_maps = Done e1 w1 ∧
    UnBanUser env (Some 0) "bob" None w1 = Done e2 w2 ∧
    calls w2 = [ {| req_method := POST; req_path := "moderation/ban";
                    req_params := None; req_data := VMap (Some body) |};
                 {| req_method := DELETE; req_path := "moderation/ban";
                    req_params := Some params; req_data := VNil |} ] ∧
    chans w2 = [ex_prev].
Proof.
  apply (ban_then_unban (ex_answering ex_members_only) ex_world_maps 0
           ex_prev 7 "bob" "alice" None None);
    first [reflexivity | discriminate | exact I].
Defined.

(** ** What the channel-scoped operations send *)

(** X11: Update, the four membership operations and MarkRead post a body
    map, Truncate posts a nil body and Delete sends a DELETE with a nil
    body, all without query parameters.  Update, Delete and the membership
    operations address channels/<type>/<id>, Truncate and MarkRead its
    truncate and read segments.  The body of Update holds data and
    message; that of a membership operation its one key with the user
    IDs; that of MarkRead the caller's options with user, an object with
    the user's id, laid over them. *)
Theorem channel_requests env w l c cl options message userIDs userID :
  chans w !! l = Some c →
  Channel.client c = Some cl →
  userIDs ≠ [] → userID ≠ "" →
  live_map w options →
  let posts (op : M error) (rest : list string) (body : gmap string value) :=
    ∃ e w' r,
      op w = Done e w' ∧
      calls w' = calls w ++ [ {| req_method := POST;
                                 req_path := channel_path env c rest;
                                 req_params := None;
                                 req_data := VMap (Some r) |} ] ∧
      imaps w' !! r = Some body in
  posts (Update env (Some l) options message) []
    {[ "data" := VMap options; "message" := VString message ]} ∧
  posts (AddMembers env (Some l) userIDs) []
    {[ "add_members" := VStrings userIDs ]} ∧
  posts (RemoveMembers env (Some l) userIDs) []
    {[ "remove_members" := VStrings userIDs ]} ∧
  posts (AddModerators env (Some l) userIDs) []
    {[ "add_moderators" := VStrings userIDs ]} ∧
  posts (DemoteModerators env (Some l) userIDs) []
    {[ "demote_moderators" := VStrings userIDs ]} ∧
  (∃ user,
     posts (MarkRead env (Some l) userID options) ["read"]
       (<["user" := VMap (Some user)]> (map_of w options)) ∧
     ∀ e w', MarkRead env (Some l) userID options w = Done e w' →
             imaps w' !! user = Some {[ "id" := VString userID ]}) ∧
  (∃ e w',
     Truncate env (Some l) w = Done e w' ∧
     calls w' = calls w ++ [ {| req_method := POST;
                                req_path := channel_path env c ["truncate"];
                                req_params := None;
                                req_data := VNil |} ]) ∧
  (∃ e w',
     Channel_Delete env (Some l) w = Done e w' ∧
     calls w' = calls w ++ [ {| req_method := DELETE;
                                req_path := channel_path env c [];
                                req_params := None;
                                req_data := VNil |} ]).
Proof.
  intros Hc Hcl Hids Hu Ho posts. subst posts. simpl.
  split.
  { eexists _, _, _. split; first by eapply Update_run.
    simpl. split; first done. by apply lookup_tail0. }
  split.
  { eexists _, _, _. split; first by eapply AddMembers_run.
    simpl. split; first done. by apply lookup_tail0. }
  split.
  { pose proof (RemoveMembers_run env w l c cl userIDs Hc Hcl Hids) as Hrun.
    simpl in Hrun.
    destruct (roundTrip _ _ _ _ _); eexists _, _, _;
      (split; first apply Hrun); simpl; (split; first done);
      by apply lookup_tail0. }
  split.
  { eexists _, _, _. split; first by eapply AddModerators_run.
    simpl. split; first done. by apply lookup_tail0. }
  split.
  { eexists _, _, _. split; first by eapply DemoteModerators_run.
    simpl. split; first done. by apply lookup_tail0. }
  split.
  { destruct (resolve_options w options Ho)
      as (w0 & r & Hres & Hr & Hch & Hca & Hsm & _ & _).
    assert (chans w0 !! l = Some c) as Hc0 by (by rewrite Hch).
    pose proof (lookup_lt_Some _ _ _ Hr) as Hlt.
    pose proof (MarkRead_run env w0 l c cl r _ userID Hc0 Hcl Hr Hu) as Hrun.
    simpl in Hrun.
    rewrite <- (MarkRead_resolved env _ _ _ w w0 r Hu Hres) in Hrun.
    exists (length (imaps w0)). split.
    - eexists _, _, r. split; first exact Hrun.
      simpl. rewrite Hca. split; first done.
      rewrite lookup_app_l by (by rewrite length_insert).
      by apply list_lookup_insert_eq.
    - intros e w' Hrun'. rewrite Hrun in Hrun'. injection Hrun' as _ <-.
      simpl. apply lookup_tail0. by rewrite length_insert. }
  split.
  { eexists _, _. split; first by eapply Truncate_run. done. }
  eexists _, _. split; first by eapply Channel_Delete_run. done.
Qed.

Lemma channel_requests_witness :
  let env := ex_answering ex_members_only in
  let w := ex_world_maps in
  let posts (op : M error) (rest : list string) (body : gmap string value) :=
    ∃ e w' r,
      op w = Done e w' ∧
      calls w' = [ {| req_method := POST;
                      req_path := channel_path env ex_prev rest;
                      req_params := None;
                      req_data := VMap (Some r) |} ] ∧
      imaps w' !! r = Some body in
  posts (Update env (Some 0) (Some 0) "color is blue") []
    {[ "data" := VMap (Some 0); "message" := VString "color is blue" ]} ∧
  posts (RemoveMembers env (Some 0) ["bob"]) []
    {[ "remove_members" := VStrings ["bob"] ]}.
Proof.
  assert (["bob"] ≠ []) as Hids by discriminate.
  assert ("alice" ≠ "") as Hid by discriminate.
  assert (live_map ex_world_maps (Some 0)) as Hlive by (by eexists).
  destruct (channel_requests (ex_answering ex_members_only) ex_world_maps 0
              ex_prev 7 (Some 0) "color is blue" ["bob"] "alice"
              eq_refl eq_refl Hids Hid Hlive)
    as (Hu & _ & Hr & _).
  split; [exact Hu | exact Hr].
Defined.

(** X12: RemoveMembers makes one call; when it is answered, the handle
    holds the answer merged into what it held.  The answer's member list,
    when present, becomes the handle's Members, while MemberCount and the
    other metadata change only if the answer has a channel object: after
    an answer with members alone the count is the old one. *)
Theorem RemoveMembers_merges_answer env w l c cl userIDs :
  chans w !! l = Some c →
  Channel.client c = Some cl →
  userIDs ≠ [] →
  ∃ rq ims,
    (∃ e w', RemoveMembers env (Some l) userIDs w = Done e w' ∧
             calls w' = calls w ++ [rq]) ∧
    ∀ resp, roundTrip env cl (calls w) ims rq = Replied resp →
      ∃ w' c',
        RemoveMembers env (Some l) userIDs w = Done None w' ∧
        chans w' !! l = Some c' ∧
        c' = merged resp c ∧
        (∀ ms, queryResponse.Members resp = Some ms →
               Channel.Members c' = Some ms) ∧
        (queryResponse.Channel resp = None →
         Channel.MemberCount c' = Channel.MemberCount c ∧
         Channel.ID c' = Channel.ID c ∧
         Channel.Type_ c' = Channel.Type_ c ∧
         Channel.CreatedBy c' = Channel.CreatedBy c).
Proof.
  intros Hc Hcl Hids.
  pose proof (RemoveMembers_run env w l c cl userIDs Hc Hcl Hids) as Hrun.
  simpl in Hrun. eexists _, _. split.
  - rewrite Hrun. destruct (roundTrip _ _ _ _ _); by eexists _, _.
  - intros resp Hresp. rewrite Hresp in Hrun.
    eexists _, _. split; first exact Hrun. simpl.
    split; first by eapply list_lookup_insert_eq, lookup_lt_Some.
    split; first done. unfold merged. split.
    + intros ms ->.
      by destruct (queryResponse.Channel resp),
        (queryResponse.Messages resp), (queryResponse.Read resp).
    + intros ->.
      by destruct (queryResponse.Members resp),
        (queryResponse.Messages resp), (queryResponse.Read resp).
Qed.

Lemma RemoveMembers_merges_answer_witness :
  let env := ex_answering ex_members_only in
  ∃ w' c',
    RemoveMembers env (Some 0) ["alice"] ex_world = Done None w' ∧
    chans w' !! 0 = Some c' ∧
    Channel.Members c' = Some [Some (ex_member "bob")] ∧
    Channel.MemberCount c' = 1%Z.
Proof.
  destruct (RemoveMembers_merges_answer (ex_answering ex_members_only)
              ex_world 0 ex_prev 7 ["alice"])
    as (rq & ims & _ & H); try first [reflexivity | discriminate].
  destruct (H ex_members_only eq_refl) as (w' & c' & Hrun & Hl & _ & Hm & Hn).
  exists w', c'. split; first exact Hrun. split; first exact Hl.
  split; [by apply Hm | by apply Hn].
Defined.

(** ** The nil handle *)

Lemma query_nil_handle env w options data :
  live_map w options →
  query env None options data w = Panic nil_deref.
Proof.
  intros Ho. unfold query.
  erewrite bind_run; last done.
  erewrite bind_run; last (eapply range_run; [done|]).
  2:{ intros o Hlt. simpl. by apply lookup_app_l. }
  rewrite (bind_run _ _ _ _ _ (foreach_assign_fresh _ _ _)).
  by destruct data.
Qed.

(** X13: a nil handle, which is what CreateChannel returns next to a
    validation error, cannot be used: with arguments that pass their
    checks every operation on it panics with a nil dereference before any
    call is made. *)
Theorem operations_on_nil_handle_panic env w options data soptions message
    userIDs targetID userID :
  userIDs ≠ [] → targetID ≠ "" → userID ≠ "" →
  live_map w options →
  query env None options data w = Panic nil_deref ∧
  refresh env None w = Panic nil_deref ∧
  Update env None options message w = Panic nil_deref ∧
  Channel_Delete env None w = Panic nil_deref ∧
  Truncate env None w = Panic nil_deref ∧
  AddMembers env None userIDs w = Panic nil_deref ∧
  RemoveMembers env None userIDs w = Panic nil_deref ∧
  AddModerators env None userIDs w = Panic nil_deref ∧
  DemoteModerators env None userIDs w = Panic nil_deref ∧
  MarkRead env None userID options w = Panic nil_deref ∧
  BanUser env None targetID userID options w = Panic nil_deref ∧
  UnBanUser env None targetID soptions w = Panic nil_deref.
Proof.
  intros Hids Ht Hu Ho.
  assert (length userIDs ≠ 0) as Hlen by (by destruct userIDs).
  split; first by apply query_nil_handle.
  split.
  { rewrite refresh_eq. apply query_nil_handle.
    simpl. rewrite lookup_tail0; by eauto. }
  do 3 (split; first done).
  split; first (unfold AddMembers; by rewrite decide_False).
  split; first (unfold RemoveMembers; by rewrite decide_False).
  split; first (unfold AddModerators; by rewrite decide_False).
  split; first (unfold DemoteModerators; by rewrite decide_False).
  split; first (unfold MarkRead; rewrite decide_False by done;
                by destruct options).
  split; first (unfold BanUser; rewrite !decide_False by done;
                by destruct options).
  unfold UnBanUser. rewrite decide_False by done. by destruct soptions.
Qed.

Lemma operations_on_nil_handle_panic_witness :
  let env := ex_answering ex_existing_envelope in
  ∃ ch e w',
    CreateChannel env (Some 7) (ChannelOptions.mk "general" "" None) "alice"
      ex_world_maps = Done (ch, Some e) w' ∧
    Update env ch (Some 0) "color is blue" w' = Panic nil_deref ∧
    RemoveMembers env ch ["bob"] w' = Panic nil_deref ∧
    BanUser env ch "bob" "alice" (Some 0) w' = Panic nil_deref.
Proof.
  assert (["bob"] ≠ []) as Hids by discriminate.
  assert ("bob" ≠ "") as Ht by discriminate.
  assert ("alice" ≠ "") as Hu by discriminate.
  assert (live_map ex_world_maps (Some 0)) as Hlive by (by eexists).
  destruct (operations_on_nil_handle_panic
              (ex_answering ex_existing_envelope) ex_world_maps (Some 0)
              None None "color is blue" ["bob"] "bob" "alice"
              Hids Ht Hu Hlive)
    as (_ & _ & Hup & _ & _ & _ & Hrm & _ & _ & _ & Hb & _).
  exists None, "channel type is empty", ex_world_maps.
  split; first reflexivity.
  split; first exact Hup. split; [exact Hrm | exact Hb].
Defined.

(** ** A merge followed by a refresh *)

(** X14: after a merge that brought a channel object, the next refresh
    speaks for the identity the server gave: it is posted to
    channels/<type>/<id>/query with the type and ID of the channel object,
    and its created_by carries the id of the channel object's creator, not
    of whoever the handle named before. *)
Theorem refresh_after_merge env w l prev cl q qc creator :
  chans w !! l = Some prev →
  Channel.client prev = Some cl →
  queryResponse.Channel q = Some qc →
  Channel.CreatedBy qc = Some creator →
  ∃ e w' body dref kref,
    (updateChannel q (Some l);; refresh env (Some l)) w = Done e w' ∧
    calls w' = calls w ++ [ {| req_method := POST;
                               req_path := channel_path env qc ["query"];
                               req_params := None;
                               req_data := VMap (Some body) |} ] ∧
    imaps w' !! body
    = Some (<["data" := VMap (Some dref)]>
              {[ "watch" := VBool false; "state" := VBool true;
                 "presence" := VBool false ]}) ∧
    imaps w' !! dref = Some {[ "created_by" := VMap (Some kref) ]} ∧
    imaps w' !! kref = Some {[ "id" := VString (User.ID creator) ]}.
Proof.
  intros Hc Hcl Hq Hcb.
  pose proof (lookup_lt_Some _ _ _ Hc) as Hlt.
  rewrite (bind_run _ _ _ _ _ (updateChannel_run q w l prev Hc)).
  rewrite refresh_eq.
  set (c := merged q prev).
  set (w0 := with_imaps _ _).
  assert (chans w0 !! l = Some c) as Hc0
    by (simpl; by apply list_lookup_insert_eq).
  assert (Channel.CreatedBy c = Some creator ∧
          Channel.Type_ c = Channel.Type_ qc ∧
          Channel.ID c = Channel.ID qc) as (Hcb0 & Hty & Hid).
  { subst c. unfold merged. rewrite Hq.
    by destruct (queryResponse.Members q), (queryResponse.Messages q),
      (queryResponse.Read q). }
  assert (Channel.client c = Some cl) as Hcl0
    by (subst c; by rewrite merged_client).
  assert (imaps w0 !! length (imaps w) = Some refresh_options) as Hn
    by (simpl; by apply lookup_tail0).
  assert (live_map w0 (Some (length (imaps w)))) as Ho0 by (by eexists).
  assert (map_of w0 (Some (length (imaps w))) = refresh_options) as Hom
    by (unfold map_of; by rewrite Hn).
  pose proof (query_run env w0 l c creator cl (Some (length (imaps w))) None
                Hc0 Hcb0 Hcl0 Ho0 I) as Hrun.
  destruct (query_heap_lookups w0 (Some (length (imaps w))) None
              (User.ID creator) I) as (Hbody & Hdref & Hkref).
  rewrite Hom, refresh_options_state in Hbody.
  change (map_of w0 None) with (∅ : gmap string value) in Hdref.
  rewrite insert_empty in Hdref.
  cbv zeta in Hrun. unfold query_request, channel_path in Hrun.
  rewrite Hty, Hid in Hrun.
  set (ims := query_heap _ _ _ _) in *.
  assert (∀ e w',
    query env (Some l) (Some (length (imaps w))) None w0 = Done e w' →
    imaps w' = ims →
    calls w' = calls w ++ [ {| req_method := POST;
                               req_path := channel_path env qc ["query"];
                               req_params := None;
                               req_data := VMap (Some (length (imaps w0))) |} ] →
    ∃ e w' body dref kref,
      query env (Some l) (Some (length (imaps w))) None w0 = Done e w' ∧
      calls w' = calls w ++ [ {| req_method := POST;
                                 req_path := channel_path env qc ["query"];
                                 req_params := None;
                                 req_data := VMap (Some body) |} ] ∧
      imaps w' !! body
      = Some (<["data" := VMap (Some dref)]>
                {[ "watch" := VBool false; "state" := VBool true;
                   "presence" := VBool false ]}) ∧
      imaps w' !! dref = Some {[ "created_by" := VMap (Some kref) ]} ∧
      imaps w' !! kref = Some {[ "id" := VString (User.ID creator) ]}) as Hcase.
  { intros e w' Hrun' Him Hca. eexists e, w', _, _, _.
    split; first done. split; first exact Hca. rewrite Him.
    split; first exact Hbody. split; [exact Hdref | exact Hkref]. }
  destruct (roundTrip _ _ _ _ _); by eapply Hcase.
Qed.

Lemma refresh_after_merge_witness :
  let env := ex_failing in
  ∃ e w' body dref kref,
    (updateChannel ex_channel_and_members (Some 0);; refresh env (Some 0))
      ex_world = Done e w' ∧
    calls w' = [ {| req_method := POST;
                    req_path := channel_path env ex_remote ["query"];
                    req_params := None;
                    req_data := VMap (Some body) |} ] ∧
    imaps w' !! body
    = Some (<["data" := VMap (Some dref)]>
              {[ "watch" := VBool false; "state" := VBool true;
                 "presence" := VBool false ]}) ∧
    imaps w' !! dref = Some {[ "created_by" := VMap (Some kref) ]} ∧
    imaps w' !! kref = Some {[ "id" := VString "bob" ]}.
Proof.
  apply (refresh_after_merge ex_failing ex_world 0 ex_prev 7
           ex_channel_and_members ex_remote (ex_user "bob")); reflexivity.
Defined.
